(** * Conway's Game of Life (game_of_life.py): model and verification

    The simulation core of [GameOfLife] is embedded as state-passing
    functions over a record holding the attributes of the Python object.
    The numpy grid is a list of rows of 64-bit integers, indexed the way
    numpy indexes (negative indices count from the end, anything else out
    of range raises [IndexError]).  Python exceptions are the [Raise] case
    of [result].  pygame is outside the repository: whether it opens a
    display of a given size is an input of the constructor, the event
    queue is an input of [run], and [draw_grid] returns what it sends to
    the screen; the text overlay, the clock and the caption are left out. *)

From Stdlib Require Import ZArith QArith Lia List Bool.
From stdpp Require Import base list.

Local Open Scope Z_scope.

(** ** Exceptions, loops and integer arithmetic *)

Inductive exception : Type :=
| ZeroDivisionError
| ValueError
| IndexError
| PygameError.

Inductive result (A : Type) : Type :=
| Ok (a : A)
| Raise (e : exception).

Arguments Ok {A} a.
Arguments Raise {A} e.

#[global] Instance result_ret : MRet result := fun A a => Ok a.
#[global] Instance result_bind : MBind result := fun A B f m =>
  match m with
  | Ok a => f a
  | Raise e => Raise e
  end.

(** [for x in l: s = body x s], stopping at the first exception. *)
Fixpoint for_each {A S : Type} (l : list A) (body : A -> S -> result S) (s : S)
  : result S :=
  match l with
  | [] => Ok s
  | x :: l' => s' ← body x s; for_each l' body s'
  end.

(** [range(lo, hi)] *)
Definition range (lo hi : Z) : list Z :=
  map (fun k => lo + Z.of_nat k) (seq 0 (Z.to_nat (hi - lo))).

(** [enumerate(l)] *)
Definition enumerate {A : Type} (l : list A) : list (Z * A) :=
  combine (range 0 (Z.of_nat (length l))) l.

(** [a % b] and [a // b] on Python integers: floor division, the remainder
    has the sign of the divisor, a zero divisor raises. *)
Definition py_mod (a b : Z) : result Z :=
  if b =? 0 then Raise ZeroDivisionError else Ok (a mod b).

Definition py_floordiv (a b : Z) : result Z :=
  if b =? 0 then Raise ZeroDivisionError else Ok (a / b).

(** ** numpy arrays of shape (rows, cols), dtype int (int64) *)

(** Arithmetic on int64 scalars wraps around. *)
Definition wrap64 (z : Z) : Z := (z + 2 ^ 63) mod 2 ^ 64 - 2 ^ 63.

Abbreviation ndarray := (list (list Z)).

(** [np.zeros((r, c), dtype=int)] *)
Definition np_zeros (r c : Z) : result ndarray :=
  if (r <? 0) || (c <? 0) then Raise ValueError
  else Ok (replicate (Z.to_nat r) (replicate (Z.to_nat c) 0)).

(** Index [k] along an axis of length [n]. *)
Definition np_index (n : nat) (k : Z) : result nat :=
  if (0 <=? k) && (k <? Z.of_nat n) then Ok (Z.to_nat k)
  else if (- Z.of_nat n <=? k) && (k <? 0) then Ok (Z.to_nat (k + Z.of_nat n))
  else Raise IndexError.

(** [a[r][c]] *)
Definition getitem (a : ndarray) (r c : Z) : result Z :=
  i ← np_index (length a) r;
  match a !! i with
  | None => Raise IndexError
  | Some line =>
      j ← np_index (length line) c;
      match line !! j with
      | None => Raise IndexError
      | Some v => Ok v
      end
  end.

(** [a[r][c] = v]: [a[r]] is a view, the array is updated in place. *)
Definition setitem (a : ndarray) (r c : Z) (v : Z) : result ndarray :=
  i ← np_index (length a) r;
  match a !! i with
  | None => Raise IndexError
  | Some line =>
      j ← np_index (length line) c;
      Ok (<[i := <[j := v]> line]> a)
  end.

(** ** The GameOfLife object *)

Record GameOfLife : Type := mkGame {
  width : Z;
  height : Z;
  cell_size : Z;
  cols : Z;
  rows : Z;
  grid : ndarray;
  running : bool;
  paused : bool;
  generation : Z;
  (** lines printed by [handle_mouse_click]: row, column, new value *)
  stdout : list (Z * Z * Z)
}.

(** Attribute assignments. *)
Definition set_grid (self : GameOfLife) (a : ndarray) : GameOfLife :=
  mkGame (width self) (height self) (cell_size self) (cols self) (rows self)
    a (running self) (paused self) (generation self) (stdout self).

Definition set_generation (self : GameOfLife) (n : Z) : GameOfLife :=
  mkGame (width self) (height self) (cell_size self) (cols self) (rows self)
    (grid self) (running self) (paused self) n (stdout self).

Definition set_running (self : GameOfLife) (b : bool) : GameOfLife :=
  mkGame (width self) (height self) (cell_size self) (cols self) (rows self)
    (grid self) b (paused self) (generation self) (stdout self).

Definition set_paused (self : GameOfLife) (b : bool) : GameOfLife :=
  mkGame (width self) (height self) (cell_size self) (cols self) (rows self)
    (grid self) (running self) b (generation self) (stdout self).

(** [print(...)] in [handle_mouse_click]. *)
Definition print (self : GameOfLife) (line : Z * Z * Z) : GameOfLife :=
  mkGame (width self) (height self) (cell_size self) (cols self) (rows self)
    (grid self) (running self) (paused self) (generation self)
    (stdout self ++ [line]).

(** What pygame does with a surface size is not in the repository:
    [display width height] tells whether [pygame.init()] followed by
    [pygame.display.set_mode((width, height))] opens the display. *)
Definition Display : Type := Z -> Z -> bool.

(** [pygame.init(); pygame.display.set_mode((width, height))]: raises
    [pygame.error] when the display is not opened. *)
Definition set_mode (display : Display) (width height : Z) : result unit :=
  if display width height then Ok tt else Raise PygameError.

(** [GameOfLife(width, height, cell_size)]: the two divisions, then the
    display, then the grid. *)
Definition __init__ (display : Display) (width height cell_size : Z)
  : result GameOfLife :=
  cols ← py_floordiv width cell_size;
  rows ← py_floordiv height cell_size;
  screen ← set_mode display width height;
  grid ← np_zeros rows cols;
  Ok (mkGame width height cell_size cols rows grid true false 0 []).

(** The source of randomness: the values [random.random()] will return,
    in order.  They are floats in [0, 1), hence rationals, and the
    comparison with the density is exact. *)
Definition Random := nat -> Q.

Definition random_next (rnd : Random) : Q * Random :=
  (rnd 0%nat, fun n => rnd (S n)).

Definition default_density : Q := 3 # 10.

(** [x < y] on these values. *)
Definition Qlt_bool (x y : Q) : bool := negb (Qle_bool y x).

(** [randomize_grid(density)]: every cell is redrawn, in row-major order,
    one value of the random source per cell; the counter is reset. *)
Definition randomize_grid (self : GameOfLife) (density : Q) (rnd : Random)
  : result (GameOfLife * Random) :=
  '(a, rnd) ← for_each (range 0 (rows self)) (fun i s =>
      for_each (range 0 (cols self)) (fun j '(a, rnd) =>
        let '(x, rnd) := random_next rnd in
        a ← setitem a i j (if Qlt_bool x density then 1 else 0);
        Ok (a, rnd)) s) (grid self, rnd);
  Ok (set_generation (set_grid self a) 0, rnd).

(** [clear_grid()]: a fresh array of zeros; the counter is reset. *)
Definition clear_grid (self : GameOfLife) : result GameOfLife :=
  a ← np_zeros (rows self) (cols self);
  Ok (set_generation (set_grid self a) 0).

(** [count_neighbors(row, col)]: the sum of the eight cells around
    (row, col), indices taken modulo the dimensions. *)
Definition count_neighbors (self : GameOfLife) (row col : Z) : result Z :=
  for_each (range (-1) 2) (fun i count =>
    for_each (range (-1) 2) (fun j count =>
      if (i =? 0) && (j =? 0) then Ok count
      else
        neighbor_row ← py_mod (row + i) (rows self);
        neighbor_col ← py_mod (col + j) (cols self);
        v ← getitem (grid self) neighbor_row neighbor_col;
        Ok (wrap64 (count + v))) count) 0.

(** [update_grid()]: the next generation is built in a fresh array from
    [self.grid], which is replaced at the end; the counter is advanced. *)
Definition update_grid (self : GameOfLife) : result GameOfLife :=
  new_grid ← np_zeros (rows self) (cols self);
  new_grid ← for_each (range 0 (rows self)) (fun i new_grid =>
    for_each (range 0 (cols self)) (fun j new_grid =>
      neighbors ← count_neighbors self i j;
      cur ← getitem (grid self) i j;
      if cur =? 1 then
        if (neighbors =? 2) || (neighbors =? 3) then setitem new_grid i j 1
        else Ok new_grid
      else
        if neighbors =? 3 then setitem new_grid i j 1
        else Ok new_grid) new_grid) new_grid;
  Ok (set_generation (set_grid self new_grid) (generation self + 1)).

(** The body of [handle_mouse_click] once the pixel position is converted:
    the [toggle(row, col)] of the specification. *)
Definition toggle (self : GameOfLife) (row col : Z) : result GameOfLife :=
  if (0 <=? row) && (row <? rows self) && (0 <=? col) && (col <? cols self)
  then
    v ← getitem (grid self) row col;
    a ← setitem (grid self) row col (wrap64 (1 - v));
    let self := set_grid self a in
    v' ← getitem (grid self) row col;
    Ok (print self (row, col, v'))
  else Ok self.

(** [handle_mouse_click(pos)], with pos = (x, y) in pixels. *)
Definition handle_mouse_click (self : GameOfLife) (pos : Z * Z)
  : result GameOfLife :=
  let '(x, y) := pos in
  col ← py_floordiv x (cell_size self);
  row ← py_floordiv y (cell_size self);
  toggle self row col.

(** ** Pattern seeding *)

(** The tables of [create_glider] and [create_blinker]. *)
Definition glider : ndarray :=
  [ [0; 1; 0];
    [0; 0; 1];
    [1; 1; 1] ].

Definition blinker : ndarray :=
  [ [1; 1; 1] ].

(** [create_glider(game, start_row, start_col)]: only the lower and right
    bounds are tested before a template cell is written. *)
Definition create_glider (game : GameOfLife) (start_row start_col : Z)
  : result GameOfLife :=
  a ← for_each (enumerate glider) (fun '(i, row) a =>
      for_each (enumerate row) (fun '(j, cell) a =>
        if (start_row + i <? rows game) && (start_col + j <? cols game)
        then setitem a (start_row + i) (start_col + j) cell
        else Ok a) a) (grid game);
  Ok (set_grid game a).

(** [create_blinker(game, start_row, start_col)] *)
Definition create_blinker (game : GameOfLife) (start_row start_col : Z)
  : result GameOfLife :=
  a ← for_each (enumerate blinker) (fun '(i, row) a =>
      for_each (enumerate row) (fun '(j, cell) a =>
        if (start_row + i <? rows game) && (start_col + j <? cols game)
        then setitem a (start_row + i) (start_col + j) cell
        else Ok a) a) (grid game);
  Ok (set_grid game a).

(** The loop that the two functions share, for any template. *)
Definition seed (pattern : ndarray) (game : GameOfLife)
    (start_row start_col : Z) : result GameOfLife :=
  a ← for_each (enumerate pattern) (fun '(i, row) a =>
      for_each (enumerate row) (fun '(j, cell) a =>
        if (start_row + i <? rows game) && (start_col + j <? cols game)
        then setitem a (start_row + i) (start_col + j) cell
        else Ok a) a) (grid game);
  Ok (set_grid game a).

(** ** Events and the main loop *)

Inductive key : Type := K_SPACE | K_r | K_c | K_ESCAPE | K_other.

Inductive event : Type :=
| QUIT
| KEYDOWN (k : key)
| MOUSEBUTTONDOWN (button : Z) (pos : Z * Z)
| OTHER.

(** One iteration of [for event in pygame.event.get()]. *)
Definition dispatch (ev : event) (s : GameOfLife * Random)
  : result (GameOfLife * Random) :=
  let '(self, rnd) := s in
  match ev with
  | QUIT => Ok (set_running self false, rnd)
  | KEYDOWN K_SPACE => Ok (set_paused self (negb (paused self)), rnd)
  | KEYDOWN K_r => randomize_grid self default_density rnd
  | KEYDOWN K_c => self ← clear_grid self; Ok (self, rnd)
  | KEYDOWN K_ESCAPE => Ok (set_running self false, rnd)
  | KEYDOWN K_other => Ok s
  | MOUSEBUTTONDOWN button pos =>
      if button =? 1 then self ← handle_mouse_click self pos; Ok (self, rnd)
      else Ok s
  | OTHER => Ok s
  end.

(** One iteration of [while self.running], on the batch of events that
    [pygame.event.get()] returns for it. *)
Definition frame (events : list event) (s : GameOfLife * Random)
  : result (GameOfLife * Random) :=
  '(self, rnd) ← for_each events dispatch s;
  if negb (paused self) then
    self ← update_grid self; Ok (self, rnd)
  else Ok (self, rnd).

(** [run], on the batches the event queue will deliver, one per frame.  The
    loop is left, and the process exits, once [running] is false; the
    result is the state at that point, or the state reached when the given
    batches are used up. *)
Fixpoint run (batches : list (list event)) (s : GameOfLife * Random)
  : result (GameOfLife * Random) :=
  match batches with
  | [] => Ok s
  | events :: batches' =>
      if running (fst s) then s' ← frame events s; run batches' s'
      else Ok s
  end.

(** [iterate f n] applies a fallible operation [n] times. *)
Fixpoint iterate {S : Type} (f : S -> result S) (n : nat) (s : S) : result S :=
  match n with
  | O => Ok s
  | S n' => s' ← f s; iterate f n' s'
  end.

(** ** Reading the grid: cells, shape, invariant *)

(** The value at row [i], column [j], both counted from 0. *)
Definition cell (a : ndarray) (i j : Z) : Z :=
  match a !! Z.to_nat i with
  | Some line => default 0 (line !! Z.to_nat j)
  | None => 0
  end.

(** [a] with the value at row [i], column [j] replaced. *)
Definition upd (a : ndarray) (i j : Z) (v : Z) : ndarray :=
  match a !! Z.to_nat i with
  | Some line => <[Z.to_nat i := <[Z.to_nat j := v]> line]> a
  | None => a
  end.

(** The array has shape (r, c). *)
Definition shaped (a : ndarray) (r c : Z) : Prop :=
  0 <= r /\ 0 <= c /\ length a = Z.to_nat r /\
  Forall (fun line => length line = Z.to_nat c) a.

(** (i, j) is a position of a grid of r rows and c columns. *)
Definition in_grid (r c i j : Z) : Prop := 0 <= i < r /\ 0 <= j < c.

(** Every cell is DEAD (0) or ALIVE (1). *)
Definition binary (a : ndarray) (r c : Z) : Prop :=
  forall i j, in_grid r c i j -> cell a i j = 0 \/ cell a i j = 1.

(** The invariant of the object: the grid has the recorded shape, holds
    only 0 and 1, and the cell size is not zero. *)
Definition wf (self : GameOfLife) : Prop :=
  shaped (grid self) (rows self) (cols self) /\
  binary (grid self) (rows self) (cols self) /\
  cell_size self <> 0.

(** Case analysis on every integer comparison of the goal. *)
Ltac cases_cmp :=
  repeat match goal with
  | |- context [?a <=? ?b] => destruct (Z.leb_spec a b)
  | |- context [?a <? ?b] => destruct (Z.ltb_spec a b)
  | |- context [?a =? ?b] => destruct (Z.eqb_spec a b)
  end; simpl.

(** ** Neighbours and the rule *)

(** The eight neighbours of (row, col) on the torus, in the order in
    which [count_neighbors] visits them. *)
Definition offsets : list (Z * Z) :=
  [(-1, -1); (-1, 0); (-1, 1); (0, -1); (0, 1); (1, -1); (1, 0); (1, 1)].

Definition neighbor_positions (R C row col : Z) : list (Z * Z) :=
  map (fun '(di, dj) => ((row + di) mod R, (col + dj) mod C)) offsets.

(** The sum of the values found at these positions. *)
Definition neighbor_sum (a : ndarray) (R C row col : Z) : Z :=
  foldl (fun count '(i, j) => count + cell a i j) 0 (neighbor_positions R C row col).

(** Conway's rule as [update_grid] applies it to one cell: the current
    value and the number of neighbours give the new value. *)
Definition rule (cur neighbors : Z) : Z :=
  if cur =? 1 then
    if (neighbors =? 2) || (neighbors =? 3) then 1 else 0
  else
    if neighbors =? 3 then 1 else 0.

(** The value [update_grid] gives cell (i, j), from the grid of [self]. *)
Definition next_cell (self : GameOfLife) (i j : Z) : Z :=
  rule (cell (grid self) i j)
       (neighbor_sum (grid self) (rows self) (cols self) i j).

Definition ALIVE : Z := 1.
Definition DEAD : Z := 0.

(** The number of ALIVE cells among a list of positions. *)
Definition alive_among (a : ndarray) (positions : list (Z * Z)) : Z :=
  Z.of_nat (length (filter (fun p => cell a p.1 p.2 = ALIVE) positions)).

(** ** Pattern seeding: what is written where *)

(** The cells of a template with their coordinates, in the order in which
    the seeding loop visits them. *)
Definition template_cells (pattern : ndarray) : list (Z * Z * Z) :=
  flat_map (fun '(i, line) => map (fun '(j, v) => (i, j, v)) (enumerate line))
           (enumerate pattern).

(** The test of the seeding loop for template cell (i, j). *)
Definition seed_guard (game : GameOfLife) (start_row start_col i j : Z) : bool :=
  (start_row + i <? rows game) && (start_col + j <? cols game).

(** The grid position at which template cell (i, j) lands. *)
Definition seed_target (game : GameOfLife) (start_row start_col i j : Z)
  : Z * Z :=
  ((start_row + i) mod rows game, (start_col + j) mod cols game).

(** One guarded write of the seeding loop, on the grid as a value. *)
Definition seed_write (game : GameOfLife) (start_row start_col : Z)
    (a : ndarray) (w : Z * Z * Z) : ndarray :=
  let '(i, j, v) := w in
  if seed_guard game start_row start_col i j
  then upd a ((start_row + i) mod rows game) ((start_col + j) mod cols game) v
  else a.

(** The quit signal and the escape key. *)
Definition is_quit (ev : event) : bool :=
  match ev with
  | QUIT | KEYDOWN K_ESCAPE => true
  | _ => false
  end.

(** ** A decidable invariant and a concrete object *)

(** The invariant as a test that computes. *)
Definition wfb (self : GameOfLife) : bool :=
  (0 <=? rows self) && (0 <=? cols self) &&
  (Z.of_nat (length (grid self)) =? rows self) &&
  forallb (fun line =>
             (Z.of_nat (length line) =? cols self) &&
             forallb (fun v => (v =? 0) || (v =? 1)) line) (grid self) &&
  negb (cell_size self =? 0).

(** A display that opens every surface of non-negative size. *)
Definition open_display : Display := fun w h => (0 <=? w) && (0 <=? h).

(** A 30x30 surface with cells of 10 pixels, holding the glider, at
    generation 7. *)
Definition small_game : GameOfLife :=
  mkGame 30 30 10 3 3 [ [0; 1; 0]; [0; 0; 1]; [1; 1; 1] ] true false 7 [].

(** A source of randomness that cycles through 0, 1/4, 1/2, 3/4. *)
Definition cycle_random : Random := fun n => Z.of_nat (n mod 4) # 4.

(** ** Reachable states *)

(** The states an object can be in: built by the constructor, then
    changed by seeding, by events and by steps. *)
Inductive reachable : GameOfLife -> Prop :=
| reach_init display w h cs self :
    __init__ display w h cs = Ok self -> reachable self
| reach_update self self' :
    reachable self -> update_grid self = Ok self' -> reachable self'
| reach_randomize self density rnd self' rnd' :
    reachable self -> randomize_grid self density rnd = Ok (self', rnd') ->
    reachable self'
| reach_clear self self' :
    reachable self -> clear_grid self = Ok self' -> reachable self'
| reach_click self pos self' :
    reachable self -> handle_mouse_click self pos = Ok self' -> reachable self'
| reach_glider self r c self' :
    reachable self -> create_glider self r c = Ok self' -> reachable self'
| reach_blinker self r c self' :
    reachable self -> create_blinker self r c = Ok self' -> reachable self'
| reach_event self rnd ev self' rnd' :
    reachable self -> dispatch ev (self, rnd) = Ok (self', rnd') ->
    reachable self'.

(** What seeding [pattern] at (start_row, start_col) leaves, given the
    result [res] of the call: no exception, only the grid differs, and
    cell by cell what the grid holds. *)
Definition seeded (pattern : ndarray) (game : GameOfLife)
    (start_row start_col : Z) (res : result GameOfLife) : Prop :=
  let guard := seed_guard game start_row start_col in
  let target := seed_target game start_row start_col in
  exists a,
    res = Ok (set_grid game a) /\
    shaped a (rows game) (cols game) /\
    (* a template cell that passes the test is written at its target, and
       its value (0 as well as 1) stays there unless a later template cell
       is written at the same place *)
    (forall l1 l2 i j v,
       template_cells pattern = l1 ++ (i, j, v) :: l2 ->
       guard i j = true ->
       (forall i' j' v', In (i', j', v') l2 -> guard i' j' = true ->
          target i' j' <> target i j) ->
       cell a (target i j).1 (target i j).2 = v) /\
    (* when the grid has at least 3 rows and 3 columns no two template
       cells share a target *)
    (3 <= rows game -> 3 <= cols game ->
     forall i j v, In (i, j, v) (template_cells pattern) ->
       guard i j = true -> cell a (target i j).1 (target i j).2 = v) /\
    (* a position that is the target of no template cell passing the test
       keeps its value: cells failing the test are skipped *)
    (forall r c, in_grid (rows game) (cols game) r c ->
       (forall i j v, In (i, j, v) (template_cells pattern) ->
          guard i j = true -> target i j <> (r, c)) ->
       cell a r c = cell (grid game) r c) /\
    (* the target is the position itself, or counts from the end of the
       grid when the position is negative *)
    (forall i j, 0 <= i -> 0 <= j -> guard i j = true ->
       target i j =
         (if start_row + i <? 0 then rows game + start_row + i else start_row + i,
          if start_col + j <? 0 then cols game + start_col + j else start_col + j)).

(** ** Patterns on the plane and on the torus *)

(** A template read as a pattern on the plane: 0 outside the template. *)
Definition at_ (t : ndarray) (x y : Z) : Z :=
  if (0 <=? x) && (0 <=? y) then cell t x y else 0.

(** The grid holds template [t] with its top-left corner at (r, c),
    positions taken modulo the dimensions, and nothing else. *)
Definition shows (self : GameOfLife) (t : ndarray) (r c : Z) : Prop :=
  forall i j, in_grid (rows self) (cols self) i j ->
    cell (grid self) i j =
      at_ t ((i - r) mod rows self) ((j - c) mod cols self).

Definition showsb (self : GameOfLife) (t : ndarray) (r c : Z) : bool :=
  forallb (fun i => forallb (fun j =>
      cell (grid self) i j =? at_ t ((i - r) mod rows self) ((j - c) mod cols self))
    (range 0 (cols self))) (range 0 (rows self)).

(** The template has at most 3 rows and 3 columns. *)
Definition fits3 (t : ndarray) : bool :=
  (length t <=? 3)%nat && forallb (fun line => (length line <=? 3)%nat) t.

(** Conway's rule on the unbounded plane, for a pattern given by a template. *)
Definition plane_step (t : ndarray) (x y : Z) : Z :=
  rule (at_ t x y)
       (foldl (fun count '(di, dj) => count + at_ t (x + di) (y + dj)) 0 offsets).

(** One generation on the plane turns [t] into [t'] moved by (a, b);
    checked on the cells around the template, the only ones that can be
    ALIVE before or after. *)
Definition phase_check (t : ndarray) (a b : Z) (t' : ndarray) : bool :=
  forallb (fun x => forallb (fun y =>
      plane_step t x y =? at_ t' (x - a) (y - b)) (range (-1) 4)) (range (-1) 4).

(** The glider one, two and three generations later. *)
Definition glider1 : ndarray := [ [1; 0; 1]; [0; 1; 1]; [0; 1; 0] ].
Definition glider2 : ndarray := [ [0; 0; 1]; [1; 0; 1]; [0; 1; 1] ].
Definition glider3 : ndarray := [ [1; 0; 0]; [0; 1; 1]; [1; 1; 0] ].

(** The row (or column) of a grid position relative to the corner [r] of
    the template, taken in [-1, R-1). *)
Definition rel (R r i : Z) : Z := (i - r + 1) mod R - 1.

(** A 5x5 torus holding the glider across its corner. *)
Definition torus5 : GameOfLife :=
  mkGame 5 5 1 5 5
    [ [1; 0; 0; 1; 1];
      [0; 0; 0; 0; 0];
      [0; 0; 0; 0; 0];
      [0; 0; 0; 0; 1];
      [1; 0; 0; 0; 0] ] true false 0 [].

(** A 4x4 torus holding the glider in its top-left corner. *)
Definition torus4 : GameOfLife :=
  mkGame 4 4 1 4 4
    [ [0; 1; 0; 0];
      [0; 0; 1; 0];
      [1; 1; 1; 0];
      [0; 0; 0; 0] ] true false 0 [].

(** ** Drawing and the program entry *)

(** What [draw_grid] sends to the screen, in order: a fill, filled
    rectangles and outlines (border of 1 pixel). *)
Inductive draw : Type :=
| Fill (color : Z * Z * Z)
| Rect (color : Z * Z * Z) (x y w h : Z) (border : Z).

Definition BLACK : Z * Z * Z := (0, 0, 0).
Definition GREEN : Z * Z * Z := (0, 255, 0).
Definition GRAY : Z * Z * Z := (128, 128, 128).

(** [draw_grid()]: the screen is filled, then every cell gets a green
    square when it holds 1, and an outline in any case. *)
Definition draw_grid (self : GameOfLife) : result (list draw) :=
  for_each (range 0 (rows self)) (fun i screen =>
    for_each (range 0 (cols self)) (fun j screen =>
      let x := j * cell_size self in
      let y := i * cell_size self in
      v ← getitem (grid self) i j;
      let screen :=
        if v =? 1
        then screen ++ [Rect GREEN x y (cell_size self) (cell_size self) 0]
        else screen in
      Ok (screen ++ [Rect GRAY x y (cell_size self) (cell_size self) 1]))
      screen) [Fill BLACK].

(** The [__main__] block, on the batches of events the queue delivers. *)
Definition main (display : Display) (batches : list (list event))
    (rnd : Random) : result (GameOfLife * Random) :=
  game ← __init__ display 1000 800 8;
  game ← create_glider game 10 10;
  game ← create_blinker game 5 5;
  run batches (game, rnd).

(** The attributes set by the constructor and meant to stay: surface,
    cell size and dimensions. *)
Definition same_config (self self' : GameOfLife) : Prop :=
  width self' = width self /\ height self' = height self /\
  cell_size self' = cell_size self /\
  cols self' = cols self /\ rows self' = rows self.

(** Every cell of the grid is DEAD. *)
Definition all_dead (self : GameOfLife) : Prop :=
  forall i j, in_grid (rows self) (cols self) i j -> cell (grid self) i j = DEAD.

(** The blinker after one generation: three cells in a column. *)
Definition blinker_upright : ndarray := [ [1]; [1]; [1] ].

(** A 3x2 grid without any ALIVE cell, at generation 4. *)
Definition quiet_game : GameOfLife :=
  mkGame 30 20 10 3 2 [ [0; 0; 0]; [0; 0; 0] ] true false 4 [].

(** A 5x5 torus holding the blinker across its right edge. *)
Definition blinker5 : GameOfLife :=
  mkGame 5 5 1 5 5
    [ [0; 0; 0; 0; 0];
      [0; 0; 0; 0; 0];
      [0; 0; 0; 0; 0];
      [0; 0; 0; 0; 0];
      [1; 1; 0; 0; 1] ] true false 0 [].

(** What [draw_grid] draws for cell (i, j). *)
Definition cell_draws (self : GameOfLife) (i j : Z) : list draw :=
  (if cell (grid self) i j =? 1
   then [Rect GREEN (j * cell_size self) (i * cell_size self)
              (cell_size self) (cell_size self) 0]
   else []) ++
  [Rect GRAY (j * cell_size self) (i * cell_size self)
        (cell_size self) (cell_size self) 1].

(** * Verification *)

(** ** Loops, indices and arrays *)

Lemma bind_Ok {A B : Type} (a : A) (f : A -> result B) :
  (Ok a ≫= f) = f a.
Proof. reflexivity. Qed.

Lemma wfb_wf self : wfb self = true -> wf self.
Proof.
  unfold wfb. rewrite !andb_true_iff, negb_true_iff, forallb_forall.
  intros ((((HR%Z.leb_le & HC%Z.leb_le) & Hl%Z.eqb_eq) & Hf) & Hc%Z.eqb_neq).
  split; [|split; [|done]].
  - repeat split; try done; [lia|]. apply Forall_forall. intros line Hin.
    apply list_elem_of_In, Hf in Hin. apply andb_true_iff in Hin as [?%Z.eqb_eq _]. lia.
  - intros i j _. unfold cell.
    destruct (grid self !! Z.to_nat i) as [line|] eqn:Hline; [|by left].
    destruct (line !! Z.to_nat j) as [v|] eqn:Hv; [|by left]. cbn.
    apply list_elem_of_lookup_2, list_elem_of_In, Hf in Hline.
    apply andb_true_iff in Hline as [_ Hline]. rewrite forallb_forall in Hline.
    apply list_elem_of_lookup_2, list_elem_of_In, Hline in Hv.
    apply orb_true_iff in Hv as [?%Z.eqb_eq | ?%Z.eqb_eq]; auto.
Qed.

Lemma wrap64_small z : - 2 ^ 63 <= z < 2 ^ 63 -> wrap64 z = z.
Proof. intros H. unfold wrap64. rewrite Z.mod_small; lia. Qed.

Lemma range_nil lo hi : hi <= lo -> range lo hi = [].
Proof. intros H. unfold range. replace (Z.to_nat (hi - lo)) with 0%nat by lia. reflexivity. Qed.

Lemma range_cons lo hi : lo < hi -> range lo hi = lo :: range (lo + 1) hi.
Proof.
  intros H. unfold range.
  replace (Z.to_nat (hi - lo)) with (S (Z.to_nat (hi - (lo + 1)))) by lia.
  cbn [seq map]. f_equal; [lia|].
  rewrite <- seq_shift, map_map. apply map_ext. intros k. lia.
Qed.

(** The loop rule for [for k in range(lo, hi)]: an invariant that every
    iteration re-establishes without raising holds at the end, and the
    loop does not raise. *)
Lemma for_range_inv {S : Type} (P : Z -> S -> Prop) body lo hi (s : S) :
  lo <= hi -> P lo s ->
  (forall k s, lo <= k < hi -> P k s -> exists s', body k s = Ok s' /\ P (k + 1) s') ->
  exists s', for_each (range lo hi) body s = Ok s' /\ P hi s'.
Proof.
  intros Hle. remember (Z.to_nat (hi - lo)) as n eqn:Hn.
  revert lo s Hle Hn. induction n as [|n IH]; intros lo s Hle Hn H0 Hstep.
  - assert (lo = hi) as -> by lia. rewrite range_nil by lia. eauto.
  - rewrite range_cons by lia. cbn [for_each].
    destruct (Hstep lo s) as (s1 & -> & H1); [lia|done|]. rewrite bind_Ok.
    apply IH; [lia|lia|done|]. intros k s2 Hk. apply Hstep. lia.
Qed.

Lemma np_index_wrap (n : nat) (k : Z) :
  - Z.of_nat n <= k < Z.of_nat n ->
  np_index n k = Ok (Z.to_nat (k mod Z.of_nat n)).
Proof.
  intros H. unfold np_index. cases_cmp; try lia.
  - rewrite Z.mod_small; [done|lia].
  - rewrite <- (Z_mod_plus_full k 1 (Z.of_nat n)).
    rewrite Z.mod_small; [|lia]. repeat f_equal. lia.
Qed.

Lemma np_index_out (n : nat) (k : Z) :
  k < - Z.of_nat n \/ Z.of_nat n <= k -> np_index n k = Raise IndexError.
Proof. intros H. unfold np_index. cases_cmp; try lia; done. Qed.

Section Shaped.
Context (a : ndarray) (R C : Z) (Hs : shaped a R C).

Lemma shaped_row i :
  0 <= i < R -> exists line, a !! Z.to_nat i = Some line /\ length line = Z.to_nat C.
Proof using Hs.
  destruct Hs as (? & ? & Hl & Hf). intros Hi.
  destruct (lookup_lt_is_Some_2 a (Z.to_nat i)) as [line Hline]; [lia|].
  exists line. split; [done|].
  rewrite Forall_lookup in Hf. by apply (Hf _ _ Hline).
Qed.

Lemma getitem_cell r c :
  - R <= r < R -> - C <= c < C ->
  getitem a r c = Ok (cell a (r mod R) (c mod C)).
Proof using Hs.
  intros Hr Hc. pose proof Hs as (? & ? & Hl & _).
  assert (0 <= r mod R < R) as Hi by (apply Z.mod_pos_bound; lia).
  assert (0 <= c mod C < C) as Hj by (apply Z.mod_pos_bound; lia).
  destruct (shaped_row _ Hi) as (line & Hline & Hlen).
  unfold getitem, cell. rewrite np_index_wrap by lia. rewrite bind_Ok.
  rewrite Hl, Z2Nat.id by lia. rewrite Hline.
  rewrite np_index_wrap by lia. rewrite bind_Ok.
  rewrite Hlen, Z2Nat.id by lia.
  destruct (lookup_lt_is_Some_2 line (Z.to_nat (c mod C))) as [v ->]; [lia|done].
Qed.

Lemma getitem_in i j : in_grid R C i j -> getitem a i j = Ok (cell a i j).
Proof using Hs.
  intros [Hi Hj]. rewrite getitem_cell by lia.
  by rewrite !Z.mod_small by lia.
Qed.

Lemma setitem_upd r c v :
  - R <= r < R -> - C <= c < C ->
  setitem a r c v = Ok (upd a (r mod R) (c mod C) v).
Proof using Hs.
  intros Hr Hc. pose proof Hs as (? & ? & Hl & _).
  assert (0 <= r mod R < R) as Hi by (apply Z.mod_pos_bound; lia).
  destruct (shaped_row _ Hi) as (line & Hline & Hlen).
  unfold setitem, upd. rewrite np_index_wrap by lia. rewrite bind_Ok.
  rewrite Hl, Z2Nat.id by lia. rewrite Hline.
  rewrite np_index_wrap by lia. rewrite bind_Ok.
  by rewrite Hlen, Z2Nat.id by lia.
Qed.

Lemma setitem_in i j v : in_grid R C i j -> setitem a i j v = Ok (upd a i j v).
Proof using Hs.
  intros [Hi Hj]. rewrite setitem_upd by lia.
  by rewrite !Z.mod_small by lia.
Qed.

Lemma upd_shaped i j v : shaped (upd a i j v) R C.
Proof using Hs.
  destruct Hs as (? & ? & Hl & Hf). unfold upd.
  destruct (a !! Z.to_nat i) as [line|] eqn:Hline; [|done].
  repeat split; try done.
  - by rewrite length_insert.
  - apply Forall_insert; [done|]. rewrite length_insert.
    rewrite Forall_lookup in Hf. by apply (Hf _ _ Hline).
Qed.

Lemma cell_upd i j v i' j' :
  in_grid R C i j -> 0 <= i' -> 0 <= j' ->
  cell (upd a i j v) i' j' =
    if (i' =? i) && (j' =? j) then v else cell a i' j'.
Proof using Hs.
  intros [Hi Hj] Hi' Hj'.
  destruct (shaped_row _ Hi) as (line & Hline & Hlen).
  unfold upd, cell. rewrite Hline.
  destruct (Z.eqb_spec i' i) as [->|Hne]; simpl.
  - rewrite list_lookup_insert_eq by (apply lookup_lt_Some in Hline; lia).
    rewrite Hline.
    destruct (Z.eqb_spec j' j) as [->|Hne].
    + by rewrite list_lookup_insert_eq by lia.
    + by rewrite list_lookup_insert_ne by lia.
  - by rewrite list_lookup_insert_ne by lia.
Qed.
End Shaped.

Lemma cell_zeros n m i j : cell (replicate n (replicate m 0)) i j = 0.
Proof.
  unfold cell. destruct (replicate n _ !! _) as [line|] eqn:H; [|done].
  apply lookup_replicate in H as [-> _].
  destruct (replicate m 0 !! _) as [v|] eqn:H; [|done].
  by apply lookup_replicate in H as [-> _].
Qed.

Lemma shaped_zeros R C :
  0 <= R -> 0 <= C ->
  shaped (replicate (Z.to_nat R) (replicate (Z.to_nat C) 0)) R C.
Proof.
  intros. repeat split; try done.
  - by rewrite length_replicate.
  - apply Forall_replicate. by rewrite length_replicate.
Qed.

Lemma np_zeros_ok R C :
  0 <= R -> 0 <= C ->
  np_zeros R C = Ok (replicate (Z.to_nat R) (replicate (Z.to_nat C) 0)).
Proof. intros. unfold np_zeros. cases_cmp; try lia; done. Qed.

(** ** count_neighbors and update_grid *)

Lemma binary_bounds a R C i j :
  binary a R C -> 0 < R -> 0 < C -> 0 <= cell a (i mod R) (j mod C) <= 1.
Proof.
  intros Hb HR HC.
  destruct (Hb (i mod R) (j mod C)) as [-> | ->]; [|lia..].
  split; apply Z.mod_pos_bound; lia.
Qed.

Lemma count_neighbors_sum self row col :
  wf self -> 0 < rows self -> 0 < cols self ->
  count_neighbors self row col =
    Ok (neighbor_sum (grid self) (rows self) (cols self) row col).
Proof.
  intros (Hs & Hb & _) HR HC. unfold count_neighbors, py_mod.
  destruct (Z.eqb_spec (rows self) 0); [lia|].
  destruct (Z.eqb_spec (cols self) 0); [lia|].
  change (range (-1) 2) with [-1; 0; 1]. cbn [for_each Z.eqb andb].
  assert (forall di dj, 0 <= cell (grid self) ((row + di) mod rows self)
                                  ((col + dj) mod cols self) <= 1) as Hv
    by (intros; by eapply binary_bounds).
  pose proof (Hv (-1) (-1)). pose proof (Hv (-1) 0). pose proof (Hv (-1) 1).
  pose proof (Hv 0 (-1)). pose proof (Hv 0 1).
  pose proof (Hv 1 (-1)). pose proof (Hv 1 0). pose proof (Hv 1 1).
  repeat (rewrite ?bind_Ok;
          try (rewrite (getitem_in _ _ _ Hs)
                 by (split; apply Z.mod_pos_bound; lia));
          rewrite ?bind_Ok;
          try (rewrite wrap64_small by lia)).
  reflexivity.
Qed.

Lemma rule_binary cur n : rule cur n = 0 \/ rule cur n = 1.
Proof. unfold rule. cases_cmp; auto. Qed.

Lemma update_cell_step self ng i j :
  wf self -> shaped ng (rows self) (cols self) ->
  in_grid (rows self) (cols self) i j ->
  (neighbors ← count_neighbors self i j;
   cur ← getitem (grid self) i j;
   if cur =? 1 then
     if (neighbors =? 2) || (neighbors =? 3) then setitem ng i j 1 else Ok ng
   else
     if neighbors =? 3 then setitem ng i j 1 else Ok ng)
  = Ok (if next_cell self i j =? 1 then upd ng i j 1 else ng).
Proof.
  intros Hwf Hng Hin. pose proof Hwf as (Hs & _ & _). pose proof Hin as [Hi Hj].
  rewrite count_neighbors_sum by (done || lia). rewrite bind_Ok.
  rewrite (getitem_in _ _ _ Hs) by done. rewrite bind_Ok.
  unfold next_cell, rule.
  destruct (cell (grid self) i j =? 1);
    [destruct (_ || _)|destruct (_ =? 3)]; simpl;
    try done; by apply (setitem_in _ _ _ Hng).
Qed.

(** What [update_grid] computes: it does not raise, every cell of the new
    grid is the rule applied to the values of the grid before the call,
    and only the grid and the generation counter change. *)
Lemma update_grid_spec self :
  wf self ->
  exists a,
    update_grid self = Ok (set_generation (set_grid self a) (generation self + 1)) /\
    shaped a (rows self) (cols self) /\
    forall i j, in_grid (rows self) (cols self) i j ->
      cell a i j = next_cell self i j.
Proof.
  intros Hwf. pose proof Hwf as ((HR & HC & _) & _ & _).
  unfold update_grid. rewrite np_zeros_ok by done. rewrite bind_Ok.
  set (R := rows self) in *. set (C := cols self) in *.
  pose (done_before (i j i' j' : Z) := (i' <? i) || ((i' =? i) && (j' <? j))).
  pose (Inv (i j : Z) (ng : ndarray) :=
          shaped ng R C /\
          forall i' j', in_grid R C i' j' ->
            cell ng i' j' = if done_before i j i' j' then next_cell self i' j' else 0).
  match goal with |- context [for_each _ ?body ?z] =>
    destruct (for_range_inv (fun i => Inv i 0) body 0 R z) as (a & -> & Ha & Hcells)
  end.
  - done.
  - split; [by apply shaped_zeros|]. intros i' j' [? ?]. rewrite cell_zeros.
    unfold done_before. cases_cmp; (done || lia).
  - intros i ng Hi [Hng Hc].
    match goal with |- context [for_each _ ?body ng] =>
      destruct (for_range_inv (Inv i) body 0 C ng) as (ng' & -> & Hng' & Hc')
    end.
    + done.
    + by split.
    + intros j ng1 Hj [Hng1 Hc1].
      rewrite update_cell_step by done. eexists; split; [done|]. split.
      * destruct (_ =? 1); [by apply upd_shaped|done].
      * intros i' j' [Hi' Hj'].
        assert (cell (if next_cell self i j =? 1 then upd ng1 i j 1 else ng1) i' j'
                = if (i' =? i) && (j' =? j) then next_cell self i j else cell ng1 i' j') as ->.
        { destruct (Z.eqb_spec (next_cell self i j) 1) as [E|E].
          - rewrite (cell_upd _ _ _ Hng1) by (done || lia). by rewrite E.
          - destruct (Z.eqb_spec i' i) as [->|]; [|done].
            destruct (Z.eqb_spec j' j) as [->|]; [|done]. simpl.
            rewrite Hc1 by done. unfold done_before.
            rewrite Z.ltb_irrefl, Z.eqb_refl, Z.ltb_irrefl. simpl.
            unfold next_cell in *. destruct (rule_binary (cell (grid self) i j)
              (neighbor_sum (grid self) (rows self) (cols self) i j)); lia. }
        rewrite Hc1 by done. unfold done_before.
        destruct (Z.eqb_spec i' i) as [->|]; destruct (Z.eqb_spec j' j) as [->|];
          cases_cmp; (done || lia).
    + eexists; split; [done|]. split; [done|]. intros i' j' [? ?].
      rewrite Hc' by done. unfold done_before. cases_cmp; (done || lia).
  - rewrite bind_Ok. exists a. split; [done|]. split; [done|].
    intros i j [? ?]. rewrite Hcells by done. unfold done_before.
    cases_cmp; (done || lia).
Qed.

(** ** toggle, clear_grid, randomize_grid, the constructor *)

Lemma bounds_check_true R C i j :
  in_grid R C i j ->
  (0 <=? i) && (i <? R) && (0 <=? j) && (j <? C) = true.
Proof. intros [? ?]. cases_cmp; (done || lia). Qed.

Lemma bounds_check_false R C i j :
  ~ in_grid R C i j ->
  (0 <=? i) && (i <? R) && (0 <=? j) && (j <? C) = false.
Proof. unfold in_grid. intros ?. cases_cmp; (done || lia). Qed.

Lemma upd_binary a R C i j v :
  shaped a R C -> binary a R C -> in_grid R C i j -> v = 0 \/ v = 1 ->
  binary (upd a i j v) R C.
Proof.
  intros Hs Hb Hin Hv i' j' [? ?]. rewrite (cell_upd _ _ _ Hs) by (done || lia).
  destruct (_ && _); [done|]. by apply Hb.
Qed.

Lemma binary_zeros n m R C : binary (replicate n (replicate m 0)) R C.
Proof. intros i j _. rewrite cell_zeros. by left. Qed.

(** Writing back the value a cell had restores the array. *)
Lemma upd_restore a R C i j w :
  shaped a R C -> in_grid R C i j ->
  upd (upd a i j w) i j (cell a i j) = a.
Proof.
  intros Hs [Hi Hj]. destruct (shaped_row _ _ _ Hs _ Hi) as (line & Hline & Hlen).
  assert (Z.to_nat i < length a)%nat by (by eapply lookup_lt_Some).
  destruct (lookup_lt_is_Some_2 line (Z.to_nat j)) as [v Hv]; [lia|].
  unfold cell, upd. rewrite !Hline, Hv. simpl.
  rewrite list_lookup_insert_eq by done.
  rewrite list_insert_insert_eq, list_insert_insert_eq.
  rewrite (list_insert_id line) by done. by apply list_insert_id.
Qed.

Lemma toggle_in self i j :
  wf self -> in_grid (rows self) (cols self) i j ->
  toggle self i j =
    Ok (print (set_grid self (upd (grid self) i j (1 - cell (grid self) i j)))
              (i, j, 1 - cell (grid self) i j)).
Proof.
  intros (Hs & Hb & _) Hin. unfold toggle. rewrite bounds_check_true by done.
  rewrite (getitem_in _ _ _ Hs) by done. rewrite bind_Ok.
  rewrite wrap64_small by (destruct (Hb i j Hin) as [-> | ->]; lia).
  rewrite (setitem_in _ _ _ Hs) by done. rewrite bind_Ok. cbn [grid set_grid].
  rewrite (getitem_in _ _ _ (upd_shaped _ _ _ Hs _ _ _)) by done.
  rewrite bind_Ok. rewrite (cell_upd _ _ _ Hs) by (destruct Hin; (done || lia)).
  by rewrite !Z.eqb_refl.
Qed.

Lemma toggle_out self i j :
  ~ in_grid (rows self) (cols self) i j -> toggle self i j = Ok self.
Proof. intros H. unfold toggle. by rewrite bounds_check_false. Qed.

Lemma toggle_wf self i j self' :
  wf self -> toggle self i j = Ok self' ->
  wf self' /\ generation self' = generation self /\
  running self' = running self /\ paused self' = paused self.
Proof.
  intros Hwf. pose proof Hwf as (Hs & Hb & Hc).
  destruct (decide (in_grid (rows self) (cols self) i j)) as [Hin|Hout].
  - rewrite toggle_in by done. intros [= <-]. split; [|done].
    split; [by apply upd_shaped|]. split; [|done]. cbn.
    apply upd_binary; try done. destruct (Hb i j Hin) as [-> | ->]; auto.
  - rewrite toggle_out by done. by intros [= <-].
Qed.

Lemma handle_mouse_click_toggle self x y :
  cell_size self <> 0 ->
  handle_mouse_click self (x, y) =
    toggle self (y / cell_size self) (x / cell_size self).
Proof.
  intros Hc. unfold handle_mouse_click, py_floordiv.
  destruct (Z.eqb_spec (cell_size self) 0); done.
Qed.

Lemma clear_grid_spec self :
  0 <= rows self -> 0 <= cols self ->
  clear_grid self =
    Ok (set_generation
          (set_grid self (replicate (Z.to_nat (rows self))
                                    (replicate (Z.to_nat (cols self)) 0))) 0).
Proof. intros. unfold clear_grid. by rewrite np_zeros_ok. Qed.

Lemma clear_grid_wf self self' :
  wf self -> clear_grid self = Ok self' ->
  wf self' /\ generation self' = 0 /\
  running self' = running self /\ paused self' = paused self.
Proof.
  intros ((? & ? & ?) & _ & ?). rewrite clear_grid_spec by done. intros [= <-].
  split; [|done]. split; [by apply shaped_zeros|]. split; [apply binary_zeros|done].
Qed.

(** [randomize_grid] does not raise, leaves a grid of 0 and 1 of the same
    shape and resets the generation counter. *)
Lemma randomize_grid_spec self density rnd :
  wf self ->
  exists a rnd',
    randomize_grid self density rnd = Ok (set_generation (set_grid self a) 0, rnd') /\
    shaped a (rows self) (cols self) /\ binary a (rows self) (cols self).
Proof.
  intros (Hs & Hb & _). pose proof Hs as (HR & HC & _). unfold randomize_grid.
  pose (Inv (s : ndarray * Random) :=
          shaped s.1 (rows self) (cols self) /\ binary s.1 (rows self) (cols self)).
  match goal with |- context [for_each _ ?body ?z] =>
    destruct (for_range_inv (fun _ => Inv) body 0 (rows self) z)
      as ([a rnd'] & -> & Ha & Hba)
  end.
  - done.
  - by split.
  - intros i s Hi HI.
    match goal with |- context [for_each _ ?body s] =>
      apply (for_range_inv (fun _ => Inv) body 0 (cols self) s)
    end; [done|done|].
    intros j [a rnd1] Hj [Ha Hba]. cbn [random_next fst snd] in *.
    rewrite (setitem_in _ _ _ Ha) by done. rewrite bind_Ok.
    eexists; split; [done|]. split; cbn [fst].
    + by apply upd_shaped.
    + apply upd_binary; try done. destruct (Qlt_bool _ _); auto.
  - rewrite bind_Ok. by exists a, rnd'.
Qed.

Lemma update_grid_wf self self' :
  wf self -> update_grid self = Ok self' ->
  wf self' /\ generation self' = generation self + 1 /\
  running self' = running self /\ paused self' = paused self /\
  rows self' = rows self /\ cols self' = cols self.
Proof.
  intros Hwf. destruct (update_grid_spec self Hwf) as (a & -> & Ha & Hc).
  intros [= <-]. split; [|done]. destruct Hwf as (_ & _ & ?).
  split; [done|]. split; [|done]. intros i j Hin. cbn.
  rewrite Hc by done. apply rule_binary.
Qed.

Lemma init_spec display w h cs :
  cs <> 0 -> display w h = true -> 0 <= h / cs -> 0 <= w / cs ->
  __init__ display w h cs =
    Ok (mkGame w h cs (w / cs) (h / cs)
          (replicate (Z.to_nat (h / cs)) (replicate (Z.to_nat (w / cs)) 0))
          true false 0 []).
Proof.
  intros ? Hd ? ?. unfold __init__, py_floordiv, set_mode.
  destruct (Z.eqb_spec cs 0); [done|].
  rewrite !bind_Ok, Hd, bind_Ok. by rewrite np_zeros_ok.
Qed.

(** A constructor that returns has divided by a cell size that is not
    zero, opened the display and allocated the grid. *)
Lemma init_Ok_inv display w h cs self :
  __init__ display w h cs = Ok self ->
  cs <> 0 /\ display w h = true /\ 0 <= h / cs /\ 0 <= w / cs /\
  self = mkGame w h cs (w / cs) (h / cs)
           (replicate (Z.to_nat (h / cs)) (replicate (Z.to_nat (w / cs)) 0))
           true false 0 [].
Proof.
  unfold __init__, py_floordiv, set_mode, np_zeros.
  destruct (Z.eqb_spec cs 0); [done|]. rewrite !bind_Ok.
  destruct (display w h); [|done]. rewrite bind_Ok.
  destruct (Z.ltb_spec (h / cs) 0); [done|].
  destruct (Z.ltb_spec (w / cs) 0); [done|]. cbn. by intros [= <-].
Qed.

Lemma init_wf display w h cs self : __init__ display w h cs = Ok self -> wf self.
Proof.
  intros (? & _ & ? & ? & ->)%init_Ok_inv.
  split; [by apply shaped_zeros|]. split; [apply binary_zeros|done].
Qed.

(** ** The step rule and the neighbour count *)

Lemma sum_alive_among a R C positions z :
  binary a R C -> Forall (fun p => in_grid R C p.1 p.2) positions ->
  foldl (fun count '(i, j) => count + cell a i j) z positions =
    z + alive_among a positions.
Proof.
  intros Hb Hin. revert z. unfold alive_among.
  induction Hin as [|[i j] l Hp _ IH]; intros z; cbn [foldl].
  - simpl. lia.
  - rewrite IH, filter_cons. cbn [fst snd] in *. unfold ALIVE.
    destruct (Hb i j Hp) as [E|E]; rewrite E; case_decide; try done; cbn [length]; lia.
Qed.

Lemma neighbor_positions_in R C row col :
  0 < R -> 0 < C ->
  Forall (fun p => in_grid R C p.1 p.2) (neighbor_positions R C row col).
Proof.
  intros. unfold neighbor_positions. apply Forall_map, Forall_forall.
  intros [di dj] _. split; apply Z.mod_pos_bound; lia.
Qed.

Lemma alive_among_bounds a l : 0 <= alive_among a l <= Z.of_nat (length l).
Proof.
  unfold alive_among. pose proof (length_filter (fun p => cell a p.1 p.2 = ALIVE) l). lia.
Qed.

(** C1: one call of update_grid does not fail and, for every cell, the
    value it leaves is ALIVE exactly when the cell was ALIVE with 2 or 3
    live neighbours or DEAD with 3 live neighbours, and DEAD otherwise;
    both the old value and the neighbour count are those of the grid as
    it was before the call. *)
Theorem update_grid_rule (self : GameOfLife) :
  wf self ->
  exists self',
    update_grid self = Ok self' /\
    rows self' = rows self /\ cols self' = cols self /\
    forall row col, in_grid (rows self) (cols self) row col ->
      exists old n new,
        getitem (grid self) row col = Ok old /\
        count_neighbors self row col = Ok n /\
        getitem (grid self') row col = Ok new /\
        (new = ALIVE <->
           (old = ALIVE /\ (n = 2 \/ n = 3)) \/ (old = DEAD /\ n = 3)) /\
        (new <> ALIVE -> new = DEAD).
Proof.
  intros Hwf. destruct (update_grid_spec self Hwf) as (a & Heq & Ha & Hc).
  eexists. split; [exact Heq|]. split; [done|]. split; [done|].
  intros row col Hin. pose proof Hwf as (Hs & Hb & _). pose proof Hin as [? ?].
  exists (cell (grid self) row col),
         (neighbor_sum (grid self) (rows self) (cols self) row col),
         (cell a row col).
  split; [by apply (getitem_in _ _ _ Hs)|].
  split; [apply count_neighbors_sum; (done || lia)|].
  split; [by apply (getitem_in _ _ _ Ha)|].
  rewrite Hc by done. unfold next_cell, rule, ALIVE, DEAD.
  destruct (Hb row col Hin) as [-> | ->]; cases_cmp; split; (lia || tauto).
Qed.

Lemma update_grid_rule_witness :
  exists self',
    update_grid small_game = Ok self' /\
    exists old n new,
      getitem (grid small_game) 1 0 = Ok old /\
      count_neighbors small_game 1 0 = Ok n /\
      getitem (grid self') 1 0 = Ok new.
Proof.
  destruct (update_grid_rule small_game) as (s & Hup & _ & _ & Hcells).
  - apply wfb_wf. reflexivity.
  - exists s. split; [exact Hup|].
    destruct (Hcells 1 0) as (old & n & new & H1 & H2 & H3 & _).
    + unfold in_grid. simpl. lia.
    + exists old, n, new. auto.
Defined.

(** C2: on a grid with at least one row and one column, count_neighbors
    returns, for any (row, col), the number of ALIVE cells among the eight
    positions ((row+di) mod rows, (col+dj) mod cols), which all lie in the
    grid; the number is between 0 and 8; an ALIVE cell at (rows-1, cols-1)
    is counted for (0, 0), and is the whole count when it is the only
    ALIVE cell of a grid of at least 3 rows and 3 columns. *)
Theorem count_neighbors_torus (self : GameOfLife) (row col : Z) :
  wf self -> 0 < rows self -> 0 < cols self ->
  let positions := neighbor_positions (rows self) (cols self) row col in
  exists n,
    count_neighbors self row col = Ok n /\
    n = alive_among (grid self) positions /\
    0 <= n <= 8 /\
    Forall (fun p => in_grid (rows self) (cols self) p.1 p.2) positions /\
    (cell (grid self) (rows self - 1) (cols self - 1) = ALIVE ->
     exists m, count_neighbors self 0 0 = Ok m /\ 1 <= m) /\
    (3 <= rows self -> 3 <= cols self ->
     (forall i j, in_grid (rows self) (cols self) i j ->
        (cell (grid self) i j = ALIVE <-> i = rows self - 1 /\ j = cols self - 1)) ->
     count_neighbors self 0 0 = Ok 1).
Proof.
  intros Hwf HR HC positions. pose proof Hwf as (Hs & Hb & _).
  assert (forall r c, neighbor_sum (grid self) (rows self) (cols self) r c =
            alive_among (grid self) (neighbor_positions (rows self) (cols self) r c))
    as Hsum.
  { intros r c. unfold neighbor_sum.
    erewrite sum_alive_among; [lia|done|by apply neighbor_positions_in]. }
  assert ((-1) mod rows self = rows self - 1) as Hr.
  { symmetry. apply (Z.mod_unique _ _ (-1)); lia. }
  assert ((-1) mod cols self = cols self - 1) as Hcm.
  { symmetry. apply (Z.mod_unique _ _ (-1)); lia. }
  exists (neighbor_sum (grid self) (rows self) (cols self) row col).
  split; [by apply count_neighbors_sum|]. split; [apply Hsum|].
  split; [rewrite Hsum; apply (alive_among_bounds (grid self) positions)|].
  split; [by apply neighbor_positions_in|]. split.
  - intros Hlast. eexists. split; [by apply count_neighbors_sum|].
    rewrite Hsum. unfold alive_among, neighbor_positions, offsets.
    cbn [map]. rewrite filter_cons. cbn [fst snd].
    change (0 + -1) with (-1). rewrite Hr, Hcm.
    rewrite decide_True by done. cbn [length]. lia.
  - intros HR3 HC3 Honly. rewrite count_neighbors_sum by done. f_equal.
    rewrite Hsum. unfold alive_among, neighbor_positions, offsets.
    cbn [map]. change (0 + -1) with (-1). change (0 + 0) with 0.
    change (0 + 1) with 1. rewrite Hr, Hcm, !Z.mod_0_l, !Z.mod_1_l by lia.
    repeat (rewrite filter_cons; cbn [fst snd]).
    rewrite filter_nil.
    repeat match goal with
    | |- context [decide (cell (grid self) ?i ?j = ALIVE)] =>
        first [ rewrite (decide_True (P := cell (grid self) i j = ALIVE))
                  by (apply Honly; [split; lia | split; lia])
              | rewrite (decide_False (P := cell (grid self) i j = ALIVE))
                  by (rewrite Honly by (split; lia); lia) ]
    end.
    reflexivity.
Qed.

(** ** The seeding loop *)

Lemma for_each_ext {A S : Type} (l : list A) (f g : A -> S -> result S) s :
  (forall x s, In x l -> f x s = g x s) -> for_each l f s = for_each l g s.
Proof.
  revert s. induction l as [|x l IH]; intros s H; [done|]. cbn [for_each].
  rewrite H by (by left). destruct (g x s); [|done]. rewrite !bind_Ok.
  apply IH. intros. apply H. by right.
Qed.

Lemma for_each_app {A S : Type} (l1 l2 : list A) (f : A -> S -> result S) s :
  for_each (l1 ++ l2) f s = (s' ← for_each l1 f s; for_each l2 f s').
Proof.
  revert s. induction l1 as [|x l1 IH]; intros s; [done|]. cbn [for_each app].
  destruct (f x s); [|done]. rewrite !bind_Ok. apply IH.
Qed.

Lemma for_each_map {A B S : Type} (h : A -> B) l (f : B -> S -> result S) s :
  for_each (map h l) f s = for_each l (fun x => f (h x)) s.
Proof.
  revert s. induction l as [|x l IH]; intros s; [done|]. cbn [for_each map].
  destruct (f (h x) s); [|done]. rewrite !bind_Ok. apply IH.
Qed.

Lemma for_each_flat_map {A B S : Type} (h : A -> list B) l
    (f : B -> S -> result S) s :
  for_each (flat_map h l) f s = for_each l (fun x s => for_each (h x) f s) s.
Proof.
  revert s. induction l as [|x l IH]; intros s; [done|]. cbn [for_each flat_map].
  rewrite for_each_app. destruct (for_each (h x) f s); [|done].
  rewrite !bind_Ok. apply IH.
Qed.

Lemma create_glider_seed game start_row start_col :
  create_glider game start_row start_col = seed glider game start_row start_col.
Proof. reflexivity. Qed.

Lemma create_blinker_seed game start_row start_col :
  create_blinker game start_row start_col = seed blinker game start_row start_col.
Proof. reflexivity. Qed.

Lemma seed_flat pattern game start_row start_col :
  seed pattern game start_row start_col =
    (a ← for_each (template_cells pattern) (fun '(i, j, v) a =>
           if seed_guard game start_row start_col i j
           then setitem a (start_row + i) (start_col + j) v
           else Ok a) (grid game);
     Ok (set_grid game a)).
Proof.
  unfold seed, template_cells. rewrite for_each_flat_map. f_equal.
  apply for_each_ext. intros [i line] a _. rewrite for_each_map.
  apply for_each_ext. by intros [j v] a' _.
Qed.

Lemma range_In lo hi k : In k (range lo hi) <-> lo <= k < hi.
Proof.
  unfold range. rewrite in_map_iff. split.
  - intros (n & <- & Hn). apply in_seq in Hn. lia.
  - intros H. exists (Z.to_nat (k - lo)). split; [lia|]. apply in_seq. lia.
Qed.

Lemma enumerate_In {A : Type} (l : list A) i x : In (i, x) (enumerate l) -> 0 <= i.
Proof.
  unfold enumerate. intros H. apply in_combine_l in H. apply range_In in H. lia.
Qed.

Lemma template_cells_nonneg pattern i j v :
  In (i, j, v) (template_cells pattern) -> 0 <= i /\ 0 <= j.
Proof.
  unfold template_cells. rewrite in_flat_map. intros ([i' line] & Hi & Hj).
  apply in_map_iff in Hj as ([j' v'] & [= -> -> ->] & Hj).
  split; by eapply enumerate_In.
Qed.

Section Seed.
Context (game : GameOfLife) (start_row start_col : Z).
Context (Hrow : - rows game <= start_row) (Hcol : - cols game <= start_col).

Lemma seed_write_shaped a w : shaped a (rows game) (cols game) -> shaped (seed_write game start_row start_col a w) (rows game) (cols game).
Proof.
  intros Ha. destruct w as [[i j] v]. unfold seed_write.
  destruct (seed_guard _ _ _ _ _); [by apply upd_shaped|done].
Qed.

Lemma seed_writes_shaped l a :
  shaped a (rows game) (cols game) -> shaped (foldl (seed_write game start_row start_col) a l) (rows game) (cols game).
Proof.
  revert a. induction l as [|w l IH]; intros a Ha; [done|].
  cbn [foldl]. by apply IH, seed_write_shaped.
Qed.

Lemma seed_loop l a :
  shaped a (rows game) (cols game) ->
  (forall i j v, In (i, j, v) l -> 0 <= i /\ 0 <= j) ->
  for_each l (fun '(i, j, v) a =>
      if seed_guard game start_row start_col i j
      then setitem a (start_row + i) (start_col + j) v
      else Ok a) a
  = Ok (foldl (seed_write game start_row start_col) a l).
Proof using Hrow Hcol.
  revert a. induction l as [|[[i j] v] l IH]; intros a Ha Hl; [done|].
  cbn [for_each foldl]. destruct (Hl i j v) as [? ?]; [by left|].
  assert (seed_loop_step :
    (if seed_guard game start_row start_col i j
     then setitem a (start_row + i) (start_col + j) v else Ok a)
    = Ok (seed_write game start_row start_col a (i, j, v))).
  { unfold seed_write, seed_guard.
    destruct (Z.ltb_spec (start_row + i) (rows game)); [|done].
    destruct (Z.ltb_spec (start_col + j) (cols game)); [|done]. cbn.
    apply (setitem_upd _ _ _ Ha); lia. }
  rewrite seed_loop_step, bind_Ok.
  apply IH; [by apply seed_write_shaped|]. intros. eapply Hl. by right.
Qed.

Lemma seed_target_in i j :
  0 <= i -> 0 <= j -> seed_guard game start_row start_col i j = true ->
  in_grid (rows game) (cols game) (seed_target game start_row start_col i j).1
              (seed_target game start_row start_col i j).2.
Proof using Hrow Hcol.
  unfold seed_guard, seed_target. intros ? ? Hg.
  apply andb_true_iff in Hg as [?%Z.ltb_lt ?%Z.ltb_lt].
  split; apply Z.mod_pos_bound; lia.
Qed.

(** A position that no guarded template cell lands on keeps its value. *)
Lemma seed_writes_other l a r c :
  shaped a (rows game) (cols game) -> in_grid (rows game) (cols game) r c ->
  (forall i j v, In (i, j, v) l -> 0 <= i /\ 0 <= j) ->
  (forall i j v, In (i, j, v) l ->
     seed_guard game start_row start_col i j = true ->
     seed_target game start_row start_col i j <> (r, c)) ->
  cell (foldl (seed_write game start_row start_col) a l) r c = cell a r c.
Proof using Hrow Hcol.
  revert a. induction l as [|[[i j] v] l IH]; intros a Ha Hin Hl Hno; [done|].
  cbn [foldl]. rewrite IH.
  - unfold seed_write.
    destruct (seed_guard game start_row start_col i j) eqn:Hg; [|done].
    destruct (Hl i j v) as [? ?]; [by left|].
    pose proof (seed_target_in i j ltac:(done) ltac:(done) Hg) as Ht.
    rewrite (cell_upd _ _ _ Ha) by (done || apply Hin).
    specialize (Hno i j v (or_introl eq_refl) Hg). unfold seed_target in Hno.
    destruct (Z.eqb_spec r ((start_row + i) mod rows game)) as [->|]; [|done].
    destruct (Z.eqb_spec c ((start_col + j) mod cols game)) as [->|]; done.
  - by apply seed_write_shaped.
  - done.
  - intros. eapply Hl. by right.
  - intros i' j' v' ?. apply (Hno i' j' v'). by right.
Qed.

(** A guarded template cell whose position no later guarded cell lands
    on leaves its value there. *)
Lemma seed_writes_last l1 l2 i j v a :
  shaped a (rows game) (cols game) ->
  (forall i' j' v', In (i', j', v') (l1 ++ (i, j, v) :: l2) -> 0 <= i' /\ 0 <= j') ->
  seed_guard game start_row start_col i j = true ->
  (forall i' j' v', In (i', j', v') l2 ->
     seed_guard game start_row start_col i' j' = true ->
     seed_target game start_row start_col i' j' <>
     seed_target game start_row start_col i j) ->
  cell (foldl (seed_write game start_row start_col) a (l1 ++ (i, j, v) :: l2))
       (seed_target game start_row start_col i j).1
       (seed_target game start_row start_col i j).2 = v.
Proof using Hrow Hcol.
  intros Ha Hl Hg Hno. rewrite foldl_app. cbn [foldl].
  destruct (Hl i j v) as [? ?]; [apply in_elt|].
  pose proof (seed_target_in i j ltac:(done) ltac:(done) Hg) as Ht.
  rewrite seed_writes_other.
  - unfold seed_write. rewrite Hg. cbn [seed_target fst snd] in *.
    rewrite (cell_upd _ _ _ (seed_writes_shaped l1 a Ha)) by (done || apply Ht).
    by rewrite !Z.eqb_refl.
  - by apply seed_write_shaped, seed_writes_shaped.
  - done.
  - intros. eapply Hl. apply in_or_app. right. by right.
  - intros i' j' v' Hin' Hg'. specialize (Hno i' j' v' Hin' Hg').
    by destruct (seed_target game start_row start_col i j).
Qed.
End Seed.

Lemma np_index_Ok_inv n k m : np_index n k = Ok m -> - Z.of_nat n <= k < Z.of_nat n.
Proof. unfold np_index. cases_cmp; (done || lia). Qed.

Lemma setitem_Ok_inv a R C r c v a' :
  shaped a R C -> setitem a r c v = Ok a' ->
  (- R <= r < R /\ - C <= c < C) /\ a' = upd a (r mod R) (c mod C) v.
Proof.
  intros Hs H. pose proof Hs as (? & ? & Hl & _).
  assert (- R <= r < R /\ - C <= c < C) as [Hr Hc].
  { unfold setitem in H. destruct (np_index (length a) r) as [i|] eqn:Hi; [|done].
    apply np_index_Ok_inv in Hi as Hr. rewrite bind_Ok in H.
    split; [lia|]. rewrite np_index_wrap in Hi by lia. injection Hi as <-.
    destruct (shaped_row _ _ _ Hs (r mod R)) as (line & Hline & Hlen);
      [apply Z.mod_pos_bound; lia|].
    rewrite Hl, Z2Nat.id in H by lia. rewrite Hline in H.
    destruct (np_index (length line) c) as [j|] eqn:Hj; [|done].
    apply np_index_Ok_inv in Hj. lia. }
  split; [done|]. rewrite (setitem_upd _ _ _ Hs) in H by done. by injection H.
Qed.

Lemma seed_preserves pattern game start_row start_col game' :
  wf game ->
  (forall i j v, In (i, j, v) (template_cells pattern) -> v = 0 \/ v = 1) ->
  seed pattern game start_row start_col = Ok game' ->
  wf game' /\ generation game' = generation game /\
  running game' = running game /\ paused game' = paused game /\
  rows game' = rows game /\ cols game' = cols game.
Proof.
  intros (Hs & Hb & Hc) Hv. rewrite seed_flat.
  assert (forall l a a',
    shaped a (rows game) (cols game) -> binary a (rows game) (cols game) ->
    (forall i j v, In (i, j, v) l -> v = 0 \/ v = 1) ->
    for_each l (fun '(i, j, v) a =>
      if seed_guard game start_row start_col i j
      then setitem a (start_row + i) (start_col + j) v else Ok a) a = Ok a' ->
    shaped a' (rows game) (cols game) /\ binary a' (rows game) (cols game)) as Hloop.
  { induction l as [|[[i j] v] l IH]; intros a a' Ha Hba Hl; cbn [for_each].
    - by intros [= <-].
    - destruct (seed_guard _ _ _ _ _).
      + destruct (setitem a _ _ v) as [a1|] eqn:Hset; [|done]. rewrite bind_Ok.
        apply (setitem_Ok_inv _ _ _ _ _ _ _ Ha) in Hset as ([? ?] & ->).
        apply IH.
        * by apply upd_shaped.
        * apply upd_binary; try done; [split; apply Z.mod_pos_bound; lia|].
          eapply Hl. by left.
        * intros. eapply Hl. by right.
      + rewrite bind_Ok. apply IH; try done. intros. eapply Hl. by right. }
  destruct (for_each _ _ _) as [a'|] eqn:Heq; [|done]. rewrite bind_Ok.
  intros [= <-]. apply Hloop in Heq as [? ?]; done.
Qed.

Lemma glider_binary i j v : In (i, j, v) (template_cells glider) -> v = 0 \/ v = 1.
Proof. cbn. intros H. repeat (destruct H as [[= <- <- <-]|H]; [auto|]). done. Qed.

Lemma blinker_binary i j v : In (i, j, v) (template_cells blinker) -> v = 0 \/ v = 1.
Proof. cbn. intros H. repeat (destruct H as [[= <- <- <-]|H]; [auto|]). done. Qed.

(** ** Events and frames *)

(** No event raises on a well-formed object; the invariant is kept, the
    dimensions are kept, and [running] is never set back to true. *)
Lemma dispatch_wf ev self rnd :
  wf self ->
  exists self' rnd',
    dispatch ev (self, rnd) = Ok (self', rnd') /\ wf self' /\
    rows self' = rows self /\ cols self' = cols self /\
    running self' = (if is_quit ev then false else running self).
Proof.
  intros Hwf. pose proof Hwf as (Hs & Hb & Hc). pose proof Hs as (? & ? & _).
  destruct ev as [|k|button [x y]|]; cbn [dispatch is_quit].
  - by eexists _, _.
  - destruct k.
    + by eexists _, _.
    + destruct (randomize_grid_spec self default_density rnd Hwf)
        as (a & rnd' & -> & ? & ?). by eexists _, _.
    + rewrite clear_grid_spec by done. rewrite bind_Ok. eexists _, _.
      split; [done|]. split; [|done].
      split; [by apply shaped_zeros|]. split; [apply binary_zeros|done].
    + by eexists _, _.
    + by eexists _, _.
  - destruct (button =? 1); [|by eexists _, _].
    rewrite handle_mouse_click_toggle by done.
    destruct (decide (in_grid (rows self) (cols self)
                        (y / cell_size self) (x / cell_size self))) as [Hin|Hout].
    + pose proof (toggle_in self _ _ Hwf Hin) as Ht. rewrite Ht, bind_Ok.
      apply toggle_wf in Ht as (? & ? & ? & ?); [|done]. by eexists _, _.
    + rewrite toggle_out by done. by eexists _, _.
  - by eexists _, _.
Qed.

Lemma events_wf events self rnd :
  wf self ->
  exists self' rnd',
    for_each events dispatch (self, rnd) = Ok (self', rnd') /\ wf self' /\
    rows self' = rows self /\ cols self' = cols self /\
    running self' = (if existsb is_quit events then false else running self).
Proof.
  revert self rnd. induction events as [|ev events IH]; intros self rnd Hwf.
  - by eexists _, _.
  - cbn [for_each existsb].
    destruct (dispatch_wf ev self rnd Hwf) as (s1 & r1 & -> & Hwf1 & HR & HC & Hrun).
    rewrite bind_Ok.
    destruct (IH s1 r1 Hwf1) as (s2 & r2 & -> & Hwf2 & HR2 & HC2 & Hrun2).
    eexists _, _. split; [done|]. split; [done|].
    split; [congruence|]. split; [congruence|].
    rewrite Hrun2, Hrun. by destruct (is_quit ev), (existsb is_quit events).
Qed.

(** A frame dispatches the whole batch, then calls [update_grid] once
    unless the object is paused at that point. *)
Lemma frame_spec events self rnd :
  wf self ->
  exists self1 rnd1,
    for_each events dispatch (self, rnd) = Ok (self1, rnd1) /\ wf self1 /\
    running self1 = (if existsb is_quit events then false else running self) /\
    if paused self1 then frame events (self, rnd) = Ok (self1, rnd1)
    else exists self2,
      update_grid self1 = Ok self2 /\ wf self2 /\
      frame events (self, rnd) = Ok (self2, rnd1).
Proof.
  intros Hwf.
  destruct (events_wf events self rnd Hwf) as (s1 & r1 & Heq & Hwf1 & _ & _ & Hrun).
  exists s1, r1. split; [done|]. split; [done|]. split; [done|].
  unfold frame. rewrite Heq, bind_Ok.
  destruct (paused s1); cbn [negb]; [done|].
  destruct (update_grid_spec s1 Hwf1) as (a & Hup & _).
  eexists. split; [exact Hup|].
  split; [by apply (update_grid_wf s1 _ Hwf1 Hup)|]. by rewrite Hup.
Qed.

(** ** Toggling a cell *)

(** C3: toggle at a position outside the grid returns the object
    unchanged (grid, counter, flags, output) and raises nothing; so does
    a click whose pixel position converts to such a position; in
    particular for (-1, 0), (rows, 0) and (0, cols). *)
Theorem toggle_out_of_bounds (self : GameOfLife) (row col : Z) :
  ~ in_grid (rows self) (cols self) row col ->
  toggle self row col = Ok self /\
  (forall x y, cell_size self <> 0 ->
     y / cell_size self = row -> x / cell_size self = col ->
     handle_mouse_click self (x, y) = Ok self) /\
  toggle self (-1) 0 = Ok self /\
  toggle self (rows self) 0 = Ok self /\
  toggle self 0 (cols self) = Ok self.
Proof.
  intros Hout. split; [by apply toggle_out|]. split.
  - intros x y Hc <- <-. rewrite handle_mouse_click_toggle by done.
    by apply toggle_out.
  - repeat split; apply toggle_out; unfold in_grid; lia.
Qed.

Lemma toggle_out_of_bounds_witness :
  toggle small_game 3 1 = Ok small_game /\
  handle_mouse_click small_game (15, 30) = Ok small_game.
Proof.
  destruct (toggle_out_of_bounds small_game 3 1) as (H1 & H2 & _).
  - unfold in_grid. simpl. lia.
  - split; [exact H1|]. apply H2; [simpl; lia|reflexivity|reflexivity].
Defined.

(** C4: toggle at a position of the grid does not raise; it turns an
    ALIVE cell DEAD and a DEAD cell ALIVE and leaves every other cell as
    it was; a second toggle at the same position gives back the original
    grid. *)
Theorem toggle_twice (self : GameOfLife) (r c : Z) :
  wf self -> in_grid (rows self) (cols self) r c ->
  exists self1 self2,
    toggle self r c = Ok self1 /\
    toggle self1 r c = Ok self2 /\
    grid self2 = grid self /\
    (cell (grid self) r c = ALIVE -> cell (grid self1) r c = DEAD) /\
    (cell (grid self) r c = DEAD -> cell (grid self1) r c = ALIVE) /\
    (forall i j, in_grid (rows self) (cols self) i j -> (i, j) <> (r, c) ->
       cell (grid self1) i j = cell (grid self) i j) /\
    shaped (grid self1) (rows self) (cols self).
Proof.
  intros Hwf Hin. pose proof Hwf as (Hs & Hb & Hc). pose proof Hin as [? ?].
  pose proof (toggle_in self r c Hwf Hin) as H1.
  destruct (toggle_wf _ _ _ _ Hwf H1) as (Hwf1 & _).
  eexists _, _. split; [exact H1|]. split; [by apply toggle_in|].
  cbn [grid print set_grid rows cols].
  assert (cell (upd (grid self) r c (1 - cell (grid self) r c)) r c
          = 1 - cell (grid self) r c) as Hnew.
  { rewrite (cell_upd _ _ _ Hs) by (done || lia). by rewrite !Z.eqb_refl. }
  rewrite Hnew. split; [|split; [|split; [|split]]].
  - replace (1 - (1 - cell (grid self) r c)) with (cell (grid self) r c) by lia.
    by apply (upd_restore _ _ _ _ _ _ Hs).
  - unfold ALIVE, DEAD. lia.
  - unfold ALIVE, DEAD. lia.
  - intros i j [? ?] Hne. rewrite (cell_upd _ _ _ Hs) by (done || lia).
    destruct (Z.eqb_spec i r) as [->|]; [|done].
    destruct (Z.eqb_spec j c) as [->|]; done.
  - by apply upd_shaped.
Qed.

Lemma toggle_twice_witness :
  exists self1 self2,
    toggle small_game 0 1 = Ok self1 /\ toggle self1 0 1 = Ok self2 /\
    grid self2 = grid small_game.
Proof.
  destruct (toggle_twice small_game 0 1) as (s1 & s2 & H1 & H2 & H3 & _).
  - apply wfb_wf. reflexivity.
  - unfold in_grid. simpl. lia.
  - exists s1, s2. auto.
Defined.

(** ** The generation counter *)

Lemma handle_mouse_click_wf self pos self' :
  wf self -> handle_mouse_click self pos = Ok self' ->
  wf self' /\ generation self' = generation self /\
  running self' = running self /\ paused self' = paused self.
Proof.
  intros Hwf. destruct pos as [x y].
  rewrite handle_mouse_click_toggle by apply Hwf. by apply toggle_wf.
Qed.

Lemma handle_mouse_click_total self pos :
  wf self -> exists self', handle_mouse_click self pos = Ok self'.
Proof.
  intros Hwf. destruct pos as [x y].
  rewrite handle_mouse_click_toggle by apply Hwf.
  destruct (decide (in_grid (rows self) (cols self)
                      (y / cell_size self) (x / cell_size self))).
  - rewrite toggle_in by done. by eexists.
  - rewrite toggle_out by done. by eexists.
Qed.

Lemma dispatch_generation ev self rnd self' rnd' :
  wf self -> dispatch ev (self, rnd) = Ok (self', rnd') ->
  generation self' =
    match ev with
    | KEYDOWN K_r | KEYDOWN K_c => 0
    | _ => generation self
    end.
Proof.
  intros Hwf. destruct ev as [|k|button pos|]; cbn [dispatch].
  - by intros [= <- _].
  - destruct k; try by intros [= <- _].
    + destruct (randomize_grid_spec self default_density rnd Hwf)
        as (a & r & -> & _). by intros [= <- _].
    + destruct (clear_grid self) as [s|] eqn:Hcl; [|done]. rewrite bind_Ok.
      intros [= <- _]. apply clear_grid_wf in Hcl as (_ & -> & _); done.
  - destruct (button =? 1); [|by intros [= <- _]].
    destruct (handle_mouse_click self pos) as [s|] eqn:Hcl; [|done].
    rewrite bind_Ok. intros [= <- _].
    apply handle_mouse_click_wf in Hcl as (_ & -> & _); done.
  - by intros [= <- _].
Qed.

Lemma reachable_wf self : reachable self -> wf self /\ 0 <= generation self.
Proof.
  induction 1 as [display w h cs self Hinit
                 |self self' _ [IH Hg] Hop
                 |self density rnd self' rnd' _ [IH Hg] Hop
                 |self self' _ [IH Hg] Hop
                 |self pos self' _ [IH Hg] Hop
                 |self r c self' _ [IH Hg] Hop
                 |self r c self' _ [IH Hg] Hop
                 |self rnd ev self' rnd' _ [IH Hg] Hop].
  - split; [by eapply init_wf|].
    by apply init_Ok_inv in Hinit as (_ & _ & _ & _ & ->).
  - apply update_grid_wf in Hop as (? & -> & _); [|done]. split; [done|lia].
  - destruct (randomize_grid_spec self density rnd IH) as (a & r & Heq & ? & ?).
    rewrite Heq in Hop. injection Hop as <- _. split; [|done].
    split; [done|]. split; [done|apply IH].
  - apply clear_grid_wf in Hop as (? & -> & _); done.
  - apply handle_mouse_click_wf in Hop as (? & -> & _); done.
  - rewrite create_glider_seed in Hop.
    apply seed_preserves in Hop as (? & -> & _); (done || apply glider_binary).
  - rewrite create_blinker_seed in Hop.
    apply seed_preserves in Hop as (? & -> & _); (done || apply blinker_binary).
  - split.
    + destruct (dispatch_wf ev self rnd IH) as (s & r & Heq & ? & _).
      rewrite Heq in Hop. by injection Hop as <- _.
    + apply dispatch_generation in Hop; [|done]. rewrite Hop.
      destruct ev as [|[]| |]; lia.
Qed.

(** C5: the generation counter is 0 after construction; update_grid adds
    exactly 1; randomize_grid and clear_grid set it to 0 whatever it was;
    a click and the seeding of a pattern leave it as it is, and so does
    every event other than the randomize and clear keys; in every
    reachable state it is non-negative.  On a well-formed object the
    step, randomize, clear and click operations do not raise. *)
Theorem generation_counter :
  (forall display w h cs self,
     __init__ display w h cs = Ok self -> generation self = 0) /\
  (forall self, wf self ->
     exists self', update_grid self = Ok self' /\
                   generation self' = generation self + 1) /\
  (forall self density rnd, wf self ->
     exists self' rnd', randomize_grid self density rnd = Ok (self', rnd') /\
                        generation self' = 0) /\
  (forall self, wf self ->
     exists self', clear_grid self = Ok self' /\ generation self' = 0) /\
  (forall self pos, wf self ->
     exists self', handle_mouse_click self pos = Ok self' /\
                   generation self' = generation self) /\
  (forall self r c self', wf self -> create_glider self r c = Ok self' ->
     generation self' = generation self) /\
  (forall self r c self', wf self -> create_blinker self r c = Ok self' ->
     generation self' = generation self) /\
  (forall self rnd ev self' rnd', wf self ->
     dispatch ev (self, rnd) = Ok (self', rnd') ->
     generation self' = match ev with
                        | KEYDOWN K_r | KEYDOWN K_c => 0
                        | _ => generation self
                        end) /\
  (forall self, reachable self -> 0 <= generation self).
Proof.
  repeat split.
  - intros display w h cs self Hinit.
    by apply init_Ok_inv in Hinit as (_ & _ & _ & _ & ->).
  - intros self Hwf. destruct (update_grid_spec self Hwf) as (a & -> & _).
    by eexists.
  - intros self density rnd Hwf.
    destruct (randomize_grid_spec self density rnd Hwf) as (a & r & -> & _).
    by eexists _, _.
  - intros self ((? & ? & _) & _). rewrite clear_grid_spec by done. by eexists.
  - intros self pos Hwf. destruct (handle_mouse_click_total self pos Hwf) as [s Hs].
    exists s. split; [done|]. by apply handle_mouse_click_wf in Hs as (_ & -> & _).
  - intros self r c self' Hwf Hop. rewrite create_glider_seed in Hop.
    apply seed_preserves in Hop as (_ & -> & _); (done || apply glider_binary).
  - intros self r c self' Hwf Hop. rewrite create_blinker_seed in Hop.
    apply seed_preserves in Hop as (_ & -> & _); (done || apply blinker_binary).
  - intros self rnd ev self' rnd' Hwf Hop. by apply dispatch_generation in Hop.
  - intros self Hr. by apply reachable_wf.
Qed.

Lemma generation_counter_witness :
  (exists self', update_grid small_game = Ok self' /\ generation self' = 8) /\
  (exists self', clear_grid small_game = Ok self' /\ generation self' = 0) /\
  (exists self' rnd', randomize_grid small_game default_density cycle_random
                        = Ok (self', rnd') /\ generation self' = 0).
Proof.
  destruct generation_counter as (_ & Hup & Hrand & Hclear & _).
  split; [|split].
  - apply (Hup small_game). apply wfb_wf. reflexivity.
  - apply (Hclear small_game). apply wfb_wf. reflexivity.
  - apply (Hrand small_game). apply wfb_wf. reflexivity.
Defined.

(** ** Frames, pause and quit *)

Lemma frame_empty_paused self rnd :
  paused self = true -> frame [] (self, rnd) = Ok (self, rnd).
Proof. intros Hp. unfold frame. cbn. by rewrite Hp. Qed.

Lemma run_idle_paused n self rnd :
  paused self = true -> run (replicate n []) (self, rnd) = Ok (self, rnd).
Proof.
  intros Hp. induction n as [|n IH]; [done|]. cbn [replicate run fst].
  destruct (running self); [|done]. by rewrite frame_empty_paused.
Qed.

(** C6: a frame dispatches its batch of events and then calls update_grid
    exactly once if the object is not paused at that point, and not at all
    if it is paused; any number of frames without events leave a paused
    object as it is; a click, the clear key and the randomize key
    dispatched while paused still take effect. *)
Theorem frame_pause_gate (events : list event) (self : GameOfLife)
    (rnd : Random) :
  wf self ->
  (exists self1 rnd1,
     for_each events dispatch (self, rnd) = Ok (self1, rnd1) /\
     (paused self1 = false ->
      exists self2,
        update_grid self1 = Ok self2 /\
        frame events (self, rnd) = Ok (self2, rnd1) /\
        generation self2 = generation self1 + 1) /\
     (paused self1 = true -> frame events (self, rnd) = Ok (self1, rnd1))) /\
  (paused self = true ->
   (forall n, run (replicate n []) (self, rnd) = Ok (self, rnd)) /\
   (forall pos, exists self',
      handle_mouse_click self pos = Ok self' /\
      frame [MOUSEBUTTONDOWN 1 pos] (self, rnd) = Ok (self', rnd)) /\
   (exists self',
      clear_grid self = Ok self' /\
      frame [KEYDOWN K_c] (self, rnd) = Ok (self', rnd)) /\
   (exists self' rnd',
      randomize_grid self default_density rnd = Ok (self', rnd') /\
      frame [KEYDOWN K_r] (self, rnd) = Ok (self', rnd'))).
Proof.
  intros Hwf. split.
  - destruct (frame_spec events self rnd Hwf) as (s1 & r1 & Heq & Hwf1 & _ & Hf).
    exists s1, r1. split; [done|]. destruct (paused s1); split; try done.
    + intros _. destruct Hf as (s2 & Hup & _ & Hfr). exists s2.
      split; [done|]. split; [done|].
      by apply update_grid_wf in Hup as (_ & -> & _).
  - intros Hp. split; [intros n; by apply run_idle_paused|]. split; [|split].
    + intros pos. destruct (handle_mouse_click_total self pos Hwf) as [s Hs].
      exists s. split; [done|]. unfold frame. cbn. rewrite Hs, !bind_Ok.
      apply handle_mouse_click_wf in Hs as (_ & _ & _ & Hp'); [|done].
      by rewrite Hp', Hp.
    + destruct Hwf as ((? & ? & _) & _). rewrite clear_grid_spec by done.
      eexists. split; [done|]. unfold frame. cbn.
      rewrite clear_grid_spec by done. rewrite !bind_Ok. cbn. by rewrite Hp.
    + destruct (randomize_grid_spec self default_density rnd Hwf)
        as (a & r & Heq & _). eexists _, _. split; [exact Heq|].
      unfold frame. cbn. rewrite Heq, !bind_Ok. cbn. by rewrite Hp.
Qed.

Lemma frame_pause_gate_witness :
  exists self1 rnd1,
    for_each [KEYDOWN K_SPACE; MOUSEBUTTONDOWN 1 (5, 5)] dispatch
      (small_game, cycle_random) = Ok (self1, rnd1) /\
    (paused self1 = true ->
     frame [KEYDOWN K_SPACE; MOUSEBUTTONDOWN 1 (5, 5)] (small_game, cycle_random)
       = Ok (self1, rnd1)).
Proof.
  destruct (frame_pause_gate [KEYDOWN K_SPACE; MOUSEBUTTONDOWN 1 (5, 5)]
              small_game cycle_random) as ((s1 & r1 & H1 & _ & H2) & _).
  - apply wfb_wf. reflexivity.
  - exists s1, r1. split; [exact H1|exact H2].
Defined.

(** C7, as the code has it: a quit signal or the escape key clears the
    running flag; the frame in which it arrives is completed as any other
    (the rest of the batch is dispatched, and update_grid is called once
    unless the object is paused); the loop then ends, and no later batch
    is looked at. *)
Theorem quit_ends_after_frame (events : list event)
    (batches : list (list event)) (self : GameOfLife) (rnd : Random) :
  wf self -> running self = true -> existsb is_quit events = true ->
  exists self0 self1 rnd1,
    for_each events dispatch (self, rnd) = Ok (self0, rnd1) /\
    (if paused self0 then self1 = self0 else update_grid self0 = Ok self1) /\
    frame events (self, rnd) = Ok (self1, rnd1) /\
    running self1 = false /\
    run (events :: batches) (self, rnd) = Ok (self1, rnd1).
Proof.
  intros Hwf Hrun Hq.
  destruct (frame_spec events self rnd Hwf) as (s0 & r1 & Heq & Hwf0 & Hr0 & Hf).
  rewrite Hq in Hr0.
  assert (exists s1, (if paused s0 then s1 = s0 else update_grid s0 = Ok s1) /\
                     frame events (self, rnd) = Ok (s1, r1) /\ running s1 = false)
    as (s1 & Hs1 & Hfr & Hr1).
  { destruct (paused s0).
    - by exists s0.
    - destruct Hf as (s2 & Hup & _ & Hfr). exists s2. split; [done|].
      split; [done|]. by apply update_grid_wf in Hup as (_ & _ & -> & _). }
  exists s0, s1, r1. split; [done|]. split; [done|]. split; [done|].
  split; [done|]. cbn [run fst]. rewrite Hrun, Hfr, bind_Ok.
  destruct batches; cbn [run fst]; [done|]. by rewrite Hr1.
Qed.

Lemma quit_ends_after_frame_witness :
  exists s,
    run [[MOUSEBUTTONDOWN 1 (5, 5); QUIT; KEYDOWN K_c]; [KEYDOWN K_r]]
        (small_game, cycle_random) = Ok s /\
    frame [MOUSEBUTTONDOWN 1 (5, 5); QUIT; KEYDOWN K_c]
        (small_game, cycle_random) = Ok s.
Proof.
  destruct (quit_ends_after_frame [MOUSEBUTTONDOWN 1 (5, 5); QUIT; KEYDOWN K_c]
              [[KEYDOWN K_r]] small_game cycle_random)
    as (s0 & s1 & r1 & _ & _ & Hf & _ & Hr).
  - apply wfb_wf. reflexivity.
  - reflexivity.
  - reflexivity.
  - exists (s1, r1). split; [exact Hr|exact Hf].
Defined.

(** C7 as stated fails: an event that follows a quit in the same batch
    still takes effect (here the pause key), and update_grid still runs
    in the frame of the quit (here the counter goes from 7 to 8). *)
Lemma quit_batch_still_processed :
  (exists self' rnd',
     frame [QUIT; KEYDOWN K_SPACE] (small_game, cycle_random) = Ok (self', rnd') /\
     paused small_game = false /\ paused self' = true) /\
  (exists self' rnd',
     frame [QUIT] (small_game, cycle_random) = Ok (self', rnd') /\
     generation small_game = 7 /\ generation self' = 8 /\
     grid self' <> grid small_game).
Proof.
  split.
  - eexists _, _. split; [vm_compute; reflexivity|]. by split.
  - eexists _, _. split; [vm_compute; reflexivity|]. repeat split. cbn. congruence.
Qed.

(** ** Construction *)




(** ** Seeding the glider and the blinker *)

Lemma mod_wrap R p :
  - R <= p < R -> p mod R = if p <? 0 then p + R else p.
Proof.
  intros H. destruct (Z.ltb_spec p 0).
  - rewrite <- (Z_mod_plus_full p 1 R). rewrite Z.mod_small; lia.
  - rewrite Z.mod_small; lia.
Qed.

Lemma seed_seeded pattern game start_row start_col :
  wf game -> - rows game <= start_row -> - cols game <= start_col ->
  NoDup (map fst (template_cells pattern)) ->
  (forall i j v, In (i, j, v) (template_cells pattern) -> i < 3 /\ j < 3) ->
  seeded pattern game start_row start_col (seed pattern game start_row start_col).
Proof.
  intros (Hs & _ & _) Hrow Hcol Hnodup Hsmall.
  pose proof (template_cells_nonneg pattern) as Hnn.
  assert (forall l1 l2 i j v,
    template_cells pattern = l1 ++ (i, j, v) :: l2 ->
    seed_guard game start_row start_col i j = true ->
    (forall i' j' v', In (i', j', v') l2 ->
       seed_guard game start_row start_col i' j' = true ->
       seed_target game start_row start_col i' j' <>
       seed_target game start_row start_col i j) ->
    cell (foldl (seed_write game start_row start_col) (grid game) (template_cells pattern))
      (seed_target game start_row start_col i j).1
      (seed_target game start_row start_col i j).2 = v) as Hlast.
  { intros l1 l2 i j v Hsplit Hg Hno. rewrite Hsplit.
    apply seed_writes_last; try done. intros i' j' v' Hin.
    apply (Hnn i' j' v'). by rewrite Hsplit. }
  exists (foldl (seed_write game start_row start_col) (grid game)
                (template_cells pattern)).
  split; [|split; [|split; [|split; [|split]]]].
  - rewrite seed_flat, seed_loop; done.
  - by apply seed_writes_shaped.
  - exact Hlast.
  - intros HR HC i j v Hin Hg.
    destruct (in_split _ _ Hin) as (l1 & l2 & Hsplit).
    apply (Hlast l1 l2); [done|done|]. intros i' j' v' Hin' Hg' [= Hti Htj].
    assert (In (i', j', v') (template_cells pattern)) as Hin2
      by (rewrite Hsplit; apply in_or_app; right; by right).
    destruct (Hnn _ _ _ Hin), (Hnn _ _ _ Hin2),
             (Hsmall _ _ _ Hin), (Hsmall _ _ _ Hin2).
    unfold seed_guard in Hg, Hg'.
    apply andb_true_iff in Hg as [?%Z.ltb_lt ?%Z.ltb_lt].
    apply andb_true_iff in Hg' as [?%Z.ltb_lt ?%Z.ltb_lt].
    rewrite !mod_wrap in Hti, Htj by lia.
    assert (i' = i) as ->.
    { destruct (Z.ltb_spec (start_row + i') 0), (Z.ltb_spec (start_row + i) 0); lia. }
    assert (j' = j) as ->.
    { destruct (Z.ltb_spec (start_col + j') 0), (Z.ltb_spec (start_col + j) 0); lia. }
    rewrite Hsplit, map_app in Hnodup. cbn [map fst] in Hnodup.
    apply NoDup_app in Hnodup as (_ & _ & Hnodup).
    apply NoDup_cons in Hnodup as [Hnotin _]. apply Hnotin.
    apply list_elem_of_In, in_map_iff. by exists (i, j, v').
  - intros r c Hin Hno. apply seed_writes_other; try done.
  - intros i j Hi Hj Hg. unfold seed_guard in Hg.
    apply andb_true_iff in Hg as [?%Z.ltb_lt ?%Z.ltb_lt].
    unfold seed_target. rewrite !mod_wrap by lia.
    destruct (_ <? 0), (_ <? 0); f_equal; lia.
Qed.

Lemma glider_cells_small i j v :
  In (i, j, v) (template_cells glider) -> i < 3 /\ j < 3.
Proof. cbn. intros H. repeat (destruct H as [[= <- <- <-]|H]; [lia|]). done. Qed.

Lemma blinker_cells_small i j v :
  In (i, j, v) (template_cells blinker) -> i < 3 /\ j < 3.
Proof. cbn. intros H. repeat (destruct H as [[= <- <- <-]|H]; [lia|]). done. Qed.

Lemma glider_cells_NoDup : NoDup (map fst (template_cells glider)).
Proof. by apply (bool_decide_unpack _). Qed.

Lemma blinker_cells_NoDup : NoDup (map fst (template_cells blinker)).
Proof. by apply (bool_decide_unpack _). Qed.

(** C10, as the code has it: seeding the glider or the blinker at an
    offset at or above (-rows, -cols), so that no template position is
    below them, raises nothing; template cell (i, j) is written, its 0
    values included, exactly when start_row+i < rows and start_col+j <
    cols; there is no test on the upper and left side, and a negative
    position start_row+i is written at row rows+start_row+i (and likewise
    for columns). *)
Theorem pattern_seeding (game : GameOfLife) (start_row start_col : Z) :
  wf game -> - rows game <= start_row -> - cols game <= start_col ->
  seeded glider game start_row start_col
         (create_glider game start_row start_col) /\
  seeded blinker game start_row start_col
         (create_blinker game start_row start_col).
Proof.
  intros Hwf Hrow Hcol. rewrite create_glider_seed, create_blinker_seed. split.
  - apply seed_seeded; try done; [apply glider_cells_NoDup|apply glider_cells_small].
  - apply seed_seeded; try done; [apply blinker_cells_NoDup|apply blinker_cells_small].
Qed.

Lemma pattern_seeding_witness :
  seeded glider small_game (-1) (-2) (create_glider small_game (-1) (-2)) /\
  seeded blinker small_game (-1) (-2) (create_blinker small_game (-1) (-2)).
Proof.
  apply (pattern_seeding small_game (-1) (-2)).
  - apply wfb_wf. reflexivity.
  - simpl. lia.
  - simpl. lia.
Defined.

(** ** The glider on the torus *)

Lemma showsb_shows self t r c : showsb self t r c = true -> shows self t r c.
Proof.
  unfold showsb. rewrite forallb_forall. intros H i j [Hi Hj].
  apply range_In, H in Hi. rewrite forallb_forall in Hi.
  apply range_In, Hi in Hj. by apply Z.eqb_eq.
Qed.

Lemma at_out t x y :
  fits3 t = true -> ~ (0 <= x < 3 /\ 0 <= y < 3) -> at_ t x y = 0.
Proof.
  unfold fits3, at_, cell. rewrite andb_true_iff, forallb_forall.
  intros [Hl%Nat.leb_le Hf] Hout.
  destruct (Z.leb_spec 0 x); [|done]. destruct (Z.leb_spec 0 y); [|done]. cbn.
  destruct (t !! Z.to_nat x) as [line|] eqn:Hline; [|done].
  apply lookup_lt_Some in Hline as Hx.
  apply list_elem_of_lookup_2, list_elem_of_In, Hf, Nat.leb_le in Hline.
  rewrite lookup_ge_None_2; [done|lia].
Qed.

(** Positions -2 and -1 and their images R-2 and R-1 are all outside a
    template of 3 rows when R is at least 5. *)
Lemma at_wrap_row t R x y :
  fits3 t = true -> 5 <= R -> -2 <= x < R -> at_ t (x mod R) y = at_ t x y.
Proof.
  intros Hf HR Hx. destruct (Z.ltb_spec x 0).
  - rewrite mod_wrap by lia. destruct (Z.ltb_spec x 0); [|lia].
    rewrite !at_out by (done || lia). done.
  - by rewrite Z.mod_small by lia.
Qed.

Lemma at_wrap_col t C x y :
  fits3 t = true -> 5 <= C -> -2 <= y < C -> at_ t x (y mod C) = at_ t x y.
Proof.
  intros Hf HC Hy. destruct (Z.ltb_spec y 0).
  - rewrite mod_wrap by lia. destruct (Z.ltb_spec y 0); [|lia].
    rewrite !at_out by (done || lia). done.
  - by rewrite Z.mod_small by lia.
Qed.

Lemma phase_check_all t a b t' :
  fits3 t = true -> fits3 t' = true -> -1 <= a <= 1 -> -1 <= b <= 1 ->
  phase_check t a b t' = true ->
  forall x y, plane_step t x y = at_ t' (x - a) (y - b).
Proof.
  intros Hf Hf' Ha Hb Hcheck x y.
  destruct (decide (-1 <= x < 4 /\ -1 <= y < 4)) as [[Hx Hy]|Hout].
  - unfold phase_check in Hcheck. rewrite forallb_forall in Hcheck.
    apply range_In, Hcheck in Hx. rewrite forallb_forall in Hx.
    apply range_In, Hx in Hy. by apply Z.eqb_eq.
  - rewrite (at_out t') by (done || lia). unfold plane_step, offsets.
    cbn [foldl]. rewrite !(at_out t) by (done || lia). reflexivity.
Qed.

Lemma rel_bounds R r i : 0 < R -> -1 <= rel R r i < R - 1.
Proof. intros. unfold rel. pose proof (Z.mod_pos_bound (i - r + 1) R). lia. Qed.

Lemma rel_shift R r i d : 0 < R -> (i + d - r) mod R = (rel R r i + d) mod R.
Proof.
  intros. unfold rel.
  replace ((i - r + 1) mod R - 1 + d) with ((i - r + 1) mod R + (d - 1)) by lia.
  rewrite Zplus_mod_idemp_l. f_equal. lia.
Qed.

Section Phase.
Context (self : GameOfLife) (t : ndarray) (r c : Z).
Context (Hwf : wf self) (HR : 5 <= rows self) (HC : 5 <= cols self).
Context (Hfit : fits3 t = true) (Hshows : shows self t r c).

Lemma shows_rel i j di dj :
  -1 <= di <= 1 -> -1 <= dj <= 1 ->
  cell (grid self) ((i + di) mod rows self) ((j + dj) mod cols self) =
    at_ t (rel (rows self) r i + di) (rel (cols self) c j + dj).
Proof using HR HC Hfit Hshows.
  intros Hdi Hdj. rewrite Hshows by (split; apply Z.mod_pos_bound; lia).
  rewrite !Zminus_mod_idemp_l, !rel_shift by lia.
  pose proof (rel_bounds (rows self) r i). pose proof (rel_bounds (cols self) c j).
  rewrite at_wrap_row, at_wrap_col by (done || lia). done.
Qed.

Lemma shows_next i j :
  in_grid (rows self) (cols self) i j ->
  next_cell self i j = plane_step t (rel (rows self) r i) (rel (cols self) c j).
Proof using HR HC Hfit Hshows.
  intros [Hi Hj]. unfold next_cell, plane_step. f_equal.
  - pose proof (shows_rel i j 0 0 ltac:(lia) ltac:(lia)) as H.
    rewrite !Z.add_0_r in H. by rewrite !Z.mod_small in H by lia.
  - unfold neighbor_sum, neighbor_positions, offsets. cbn [map foldl].
    rewrite !shows_rel by lia. reflexivity.
Qed.

(** One generation of a template that fits in 3x3, on a torus of at
    least 5x5: what the plane gives is what the grid holds. *)
Lemma glider_phase a b t' :
  fits3 t' = true -> -1 <= a <= 1 -> -1 <= b <= 1 ->
  phase_check t a b t' = true ->
  exists self',
    update_grid self = Ok self' /\ wf self' /\
    rows self' = rows self /\ cols self' = cols self /\
    generation self' = generation self + 1 /\
    shows self' t' (r + a) (c + b).
Proof using Hwf HR HC Hfit Hshows.
  intros Hfit' Ha Hb Hcheck.
  destruct (update_grid_spec self Hwf) as (g & Hup & Hg & Hcells).
  eexists. split; [exact Hup|].
  destruct (update_grid_wf _ _ Hwf Hup) as (Hwf' & Hgen & _ & _ & HR' & HC').
  split; [done|]. split; [done|]. split; [done|]. split; [done|].
  intros i j Hin. rewrite HR', HC' in Hin |- *. cbn [grid set_grid set_generation].
  rewrite Hcells, shows_next by done.
  rewrite (phase_check_all t a b t') by done.
  pose proof (rel_bounds (rows self) r i). pose proof (rel_bounds (cols self) c j).
  replace (i - (r + a)) with (i + (- a) - r) by lia.
  replace (j - (c + b)) with (j + (- b) - c) by lia.
  rewrite !rel_shift by lia.
  rewrite at_wrap_row, at_wrap_col by (done || lia). f_equal; lia.
Qed.
End Phase.

Lemma shows_ext self t r c r' c' :
  r' = r -> c' = c -> shows self t r c -> shows self t r' c'.
Proof. by intros -> ->. Qed.

(** C9, as the code has it: on a grid of at least 5 rows and 5 columns
    that holds the glider template with its corner at (r, c), positions
    taken modulo rows and cols, and no other ALIVE cell, four calls of
    update_grid do not raise and leave exactly the glider with its corner
    at (r+1, c+1), again modulo rows and cols. *)
Theorem glider_translates (self : GameOfLife) (r c : Z) :
  wf self -> 5 <= rows self -> 5 <= cols self ->
  shows self glider r c ->
  exists self4,
    iterate update_grid 4 self = Ok self4 /\
    rows self4 = rows self /\ cols self4 = cols self /\
    generation self4 = generation self + 4 /\
    shows self4 glider (r + 1) (c + 1).
Proof.
  intros Hwf HR HC H0. cbn [iterate].
  destruct (glider_phase self glider r c Hwf HR HC eq_refl H0 1 0 glider1)
    as (s1 & -> & Hwf1 & HR1 & HC1 & Hg1 & H1); [done|lia|lia|by vm_compute|].
  rewrite bind_Ok. rewrite <- HR1 in HR. rewrite <- HC1 in HC.
  destruct (glider_phase s1 glider1 _ _ Hwf1 HR HC eq_refl H1 0 0 glider2)
    as (s2 & -> & Hwf2 & HR2 & HC2 & Hg2 & H2); [done|lia|lia|by vm_compute|].
  rewrite bind_Ok. rewrite <- HR2 in HR. rewrite <- HC2 in HC.
  destruct (glider_phase s2 glider2 _ _ Hwf2 HR HC eq_refl H2 0 1 glider3)
    as (s3 & -> & Hwf3 & HR3 & HC3 & Hg3 & H3); [done|lia|lia|by vm_compute|].
  rewrite bind_Ok. rewrite <- HR3 in HR. rewrite <- HC3 in HC.
  destruct (glider_phase s3 glider3 _ _ Hwf3 HR HC eq_refl H3 0 0 glider)
    as (s4 & -> & Hwf4 & HR4 & HC4 & Hg4 & H4); [done|lia|lia|by vm_compute|].
  rewrite bind_Ok. exists s4. split; [done|].
  split; [congruence|]. split; [congruence|]. split; [lia|].
  eapply shows_ext; [| |exact H4]; lia.
Qed.

Lemma glider_translates_witness :
  exists self4,
    iterate update_grid 4 torus5 = Ok self4 /\ shows self4 glider 4 4.
Proof.
  destruct (glider_translates torus5 3 3) as (s4 & H4 & _ & _ & _ & Hs).
  - apply wfb_wf. reflexivity.
  - simpl. lia.
  - simpl. lia.
  - apply showsb_shows. reflexivity.
  - exists s4. split; [exact H4|exact Hs].
Defined.

(** C9 as stated fails on a small grid: on a 4x4 torus the glider meets
    itself, and after four generations the grid is not the glider moved
    by (1, 1). *)
Lemma glider_breaks_on_torus4 :
  create_glider (mkGame 4 4 1 4 4 (replicate 4 (replicate 4 0)) true false 0 []) 0 0
    = Ok torus4 /\
  shows torus4 glider 0 0 /\
  exists self4,
    iterate update_grid 4 torus4 = Ok self4 /\
    grid self4 = [ [1; 0; 0; 0]; [0; 1; 0; 1]; [0; 0; 0; 0]; [1; 0; 0; 0] ] /\
    ~ shows self4 glider 1 1.
Proof.
  split; [reflexivity|]. split; [apply showsb_shows; reflexivity|].
  eexists. split; [vm_compute; reflexivity|]. split; [reflexivity|].
  intros H. specialize (H 0 0). cbn in H. unfold in_grid in H.
  specialize (H ltac:(lia)). vm_compute in H. discriminate.
Qed.

Lemma count_neighbors_torus_witness :
  exists n, count_neighbors small_game 0 0 = Ok n /\ 0 <= n <= 8.
Proof.
  destruct (count_neighbors_torus small_game 0 0) as (n & Hn & _ & Hb & _).
  - apply wfb_wf. reflexivity.
  - simpl. lia.
  - simpl. lia.
  - exists n. split; [exact Hn|exact Hb].
Defined.

(** C10 as stated fails below -rows: with 3 rows and start_row = -4,
    template cell (1, 0) is at position -3, within [-rows, 0), and passes
    the test of the loop, yet it is not written: the write of cell (0, 0)
    at position -4 raises IndexError first. *)
Lemma create_glider_below_range :
  rows small_game = 3 /\
  In (1, 0, 0) (template_cells glider) /\
  - rows small_game <= -4 + 1 < 0 /\
  seed_guard small_game (-4) 0 1 0 = true /\
  create_glider small_game (-4) 0 = Raise IndexError.
Proof.
  split; [reflexivity|]. split; [vm_compute; tauto|].
  split; [cbn; lia|]. split; [reflexivity|reflexivity].
Qed.


(** * Further properties of the code *)

(** ** What no operation changes *)

Lemma same_config_refl self : same_config self self.
Proof. by repeat split. Qed.

Lemma same_config_trans a b c :
  same_config a b -> same_config b c -> same_config a c.
Proof. unfold same_config. intros (? & ? & ? & ? & ?) (? & ? & ? & ? & ?). repeat split; congruence. Qed.

Lemma seed_config pattern game start_row start_col game' :
  seed pattern game start_row start_col = Ok game' -> same_config game game'.
Proof.
  unfold seed. destruct (for_each _ _ _) as [a|]; [|done]. rewrite bind_Ok.
  intros [= <-]. by repeat split.
Qed.

Lemma toggle_config self i j self' :
  toggle self i j = Ok self' -> same_config self self'.
Proof.
  unfold toggle. destruct (_ && _); [|intros [= <-]; apply same_config_refl].
  destruct (getitem _ _ _); [|done]. rewrite bind_Ok.
  destruct (setitem _ _ _ _); [|done]. rewrite bind_Ok. cbn [grid set_grid].
  destruct (getitem _ _ _); [|done]. rewrite bind_Ok.
  intros [= <-]. by repeat split.
Qed.

Lemma handle_mouse_click_config self pos self' :
  handle_mouse_click self pos = Ok self' -> same_config self self'.
Proof.
  destruct pos as [x y]. unfold handle_mouse_click.
  destruct (py_floordiv x _); [|done]. rewrite bind_Ok.
  destruct (py_floordiv y _); [|done]. rewrite bind_Ok. apply toggle_config.
Qed.

Lemma clear_grid_config self self' :
  clear_grid self = Ok self' -> same_config self self'.
Proof.
  unfold clear_grid. destruct (np_zeros _ _); [|done]. rewrite bind_Ok.
  intros [= <-]. by repeat split.
Qed.

Lemma randomize_grid_config self density rnd self' rnd' :
  randomize_grid self density rnd = Ok (self', rnd') -> same_config self self'.
Proof.
  unfold randomize_grid. destruct (for_each _ _ _) as [[a r]|]; [|done].
  rewrite bind_Ok. intros [= <- _]. by repeat split.
Qed.

Lemma update_grid_config self self' :
  update_grid self = Ok self' -> same_config self self'.
Proof.
  unfold update_grid. destruct (np_zeros _ _); [|done]. rewrite bind_Ok.
  destruct (for_each _ _ _); [|done]. rewrite bind_Ok.
  intros [= <-]. by repeat split.
Qed.

Lemma dispatch_config ev self rnd self' rnd' :
  dispatch ev (self, rnd) = Ok (self', rnd') -> same_config self self'.
Proof.
  destruct ev as [|k|button pos|]; cbn [dispatch].
  - by intros [= <- _].
  - destruct k; try by intros [= <- _].
    + apply randomize_grid_config.
    + destruct (clear_grid self) as [s|] eqn:Hcl; [|done]. rewrite bind_Ok.
      intros [= <- _]. by apply clear_grid_config.
  - destruct (button =? 1); [|by intros [= <- _]].
    destruct (handle_mouse_click self pos) as [s|] eqn:Hcl; [|done].
    rewrite bind_Ok. intros [= <- _]. by eapply handle_mouse_click_config.
  - by intros [= <- _].
Qed.

Lemma frame_total events self rnd :
  wf self ->
  exists self' rnd',
    frame events (self, rnd) = Ok (self', rnd') /\ wf self' /\
    same_config self self'.
Proof.
  intros Hwf. revert self rnd Hwf.
  assert (forall evs self rnd self' rnd',
            for_each evs dispatch (self, rnd) = Ok (self', rnd') ->
            same_config self self') as Hevs.
  { induction evs as [|ev evs IH]; intros self rnd self' rnd'; cbn [for_each].
    - intros [= <- _]. apply same_config_refl.
    - destruct (dispatch ev (self, rnd)) as [[s1 r1]|] eqn:Hd; [|done].
      rewrite bind_Ok. intros H. eapply same_config_trans.
      + by eapply dispatch_config.
      + by eapply IH. }
  intros self rnd Hwf.
  destruct (frame_spec events self rnd Hwf) as (s1 & r1 & Heq & Hwf1 & _ & Hf).
  apply Hevs in Heq. destruct (paused s1).
  - by exists s1, r1.
  - destruct Hf as (s2 & Hup & Hwf2 & Hfr). exists s2, r1.
    split; [done|]. split; [done|].
    eapply same_config_trans; [done|by apply update_grid_config].
Qed.

Lemma run_total batches self rnd :
  wf self ->
  exists self' rnd',
    run batches (self, rnd) = Ok (self', rnd') /\ wf self' /\
    same_config self self'.
Proof.
  revert self rnd. induction batches as [|events batches IH]; intros self rnd Hwf.
  - exists self, rnd. split; [done|]. split; [done|apply same_config_refl].
  - cbn [run fst]. destruct (running self).
    + destruct (frame_total events self rnd Hwf) as (s1 & r1 & -> & Hwf1 & Hc1).
      rewrite bind_Ok. destruct (IH s1 r1 Hwf1) as (s2 & r2 & -> & Hwf2 & Hc2).
      exists s2, r2. split; [done|]. split; [done|by eapply same_config_trans].
    + exists self, rnd. split; [done|]. split; [done|apply same_config_refl].
Qed.


(** X1: whatever events arrive, frame after frame, the main loop started
    on a well-formed object raises no exception, and the object it leaves
    is well formed. *)
Theorem run_never_raises (batches : list (list event)) (self : GameOfLife)
    (rnd : Random) :
  wf self ->
  exists self' rnd', run batches (self, rnd) = Ok (self', rnd') /\ wf self'.
Proof.
  intros Hwf. destruct (run_total batches self rnd Hwf) as (s & r & H & Hwf' & _).
  by exists s, r.
Qed.

Lemma run_never_raises_witness :
  exists self' rnd',
    run [[KEYDOWN K_r; MOUSEBUTTONDOWN 1 (-7, 400)]; [KEYDOWN K_c; OTHER]; [QUIT]]
        (small_game, cycle_random) = Ok (self', rnd') /\ wf self'.
Proof.
  apply (run_never_raises _ small_game cycle_random).
  apply wfb_wf. reflexivity.
Defined.

(** X2: the surface size, the cell size and the numbers of rows and
    columns are the same at the end of the main loop as at its start. *)
Theorem run_keeps_config (batches : list (list event)) (self : GameOfLife)
    (rnd : Random) (self' : GameOfLife) (rnd' : Random) :
  wf self -> run batches (self, rnd) = Ok (self', rnd') ->
  same_config self self'.
Proof.
  intros Hwf Hrun.
  destruct (run_total batches self rnd Hwf) as (s & r & H & _ & Hc).
  rewrite H in Hrun. by injection Hrun as <- _.
Qed.

Lemma run_keeps_config_witness :
  same_config small_game (set_running (set_paused small_game true) false).
Proof.
  apply (run_keeps_config [[KEYDOWN K_SPACE; QUIT]; [KEYDOWN K_c]]
           small_game cycle_random _ cycle_random).
  - apply wfb_wf. reflexivity.
  - reflexivity.
Defined.


(** ** Invariants of the object *)

Lemma reachable_config self :
  reachable self ->
  cell_size self <> 0 /\
  cols self = width self / cell_size self /\
  rows self = height self / cell_size self.
Proof.
  assert (forall a b, same_config a b ->
            cell_size a <> 0 /\ cols a = width a / cell_size a /\
            rows a = height a / cell_size a ->
            cell_size b <> 0 /\ cols b = width b / cell_size b /\
            rows b = height b / cell_size b) as Hkeep.
  { intros a b (-> & -> & -> & -> & ->). done. }
  induction 1 as [display w h cs self Hinit
                 |self self' _ IH Hop
                 |self density rnd self' rnd' _ IH Hop
                 |self self' _ IH Hop
                 |self pos self' _ IH Hop
                 |self r c self' _ IH Hop
                 |self r c self' _ IH Hop
                 |self rnd ev self' rnd' _ IH Hop].
  - by apply init_Ok_inv in Hinit as (? & _ & _ & _ & ->).
  - eapply Hkeep; [by eapply update_grid_config|done].
  - eapply Hkeep; [by eapply randomize_grid_config|done].
  - eapply Hkeep; [by eapply clear_grid_config|done].
  - eapply Hkeep; [by eapply handle_mouse_click_config|done].
  - eapply Hkeep; [|done]. rewrite create_glider_seed in Hop. by eapply seed_config.
  - eapply Hkeep; [|done]. rewrite create_blinker_seed in Hop. by eapply seed_config.
  - eapply Hkeep; [by eapply dispatch_config|done].
Qed.

(** X4: in every state the object can reach, the grid is an array of
    rows x cols cells that each hold 0 or 1, the cell size is not zero,
    and rows and cols are still height // cell_size and
    width // cell_size. *)
Theorem reachable_invariant (self : GameOfLife) :
  reachable self ->
  shaped (grid self) (rows self) (cols self) /\
  (forall i j, in_grid (rows self) (cols self) i j ->
     getitem (grid self) i j = Ok DEAD \/ getitem (grid self) i j = Ok ALIVE) /\
  cell_size self <> 0 /\
  rows self = height self / cell_size self /\
  cols self = width self / cell_size self.
Proof.
  intros Hr. destruct (reachable_wf self Hr) as ((Hs & Hb & _) & _).
  destruct (reachable_config self Hr) as (Hc & HC & HR).
  split; [done|]. split; [|done]. intros i j Hin.
  rewrite (getitem_in _ _ _ Hs) by done. unfold DEAD, ALIVE.
  destruct (Hb i j Hin) as [-> | ->]; auto.
Qed.

Lemma reachable_invariant_witness :
  exists self,
    __init__ open_display 30 30 10 = Ok self /\
    shaped (grid self) (rows self) (cols self) /\ rows self = 30 / 10.
Proof.
  exists (mkGame 30 30 10 3 3 (replicate 3 (replicate 3 0)) true false 0 []).
  split; [reflexivity|].
  destruct (reachable_invariant
              (mkGame 30 30 10 3 3 (replicate 3 (replicate 3 0)) true false 0 []))
    as (Hs & _ & _ & HR & _).
  - apply (reach_init open_display 30 30 10). reflexivity.
  - split; [exact Hs|exact HR].
Defined.

(** ** Grids with the same cells *)

Lemma grid_ext (a b : ndarray) R C :
  shaped a R C -> shaped b R C ->
  (forall i j, in_grid R C i j -> cell a i j = cell b i j) -> a = b.
Proof.
  intros Ha Hb Hcells. pose proof Ha as (HR & HC & Hla & _).
  pose proof Hb as (_ & _ & Hlb & _).
  apply list_eq. intros n. destruct (decide (n < Z.to_nat R)%nat) as [Hn|Hn].
  - destruct (shaped_row _ _ _ Ha (Z.of_nat n)) as (la & Hia & Hlena); [lia|].
    destruct (shaped_row _ _ _ Hb (Z.of_nat n)) as (lb & Hib & Hlenb); [lia|].
    rewrite Nat2Z.id in Hia, Hib. rewrite Hia, Hib. f_equal.
    apply list_eq. intros m. destruct (decide (m < Z.to_nat C)%nat) as [Hm|Hm].
    + specialize (Hcells (Z.of_nat n) (Z.of_nat m) ltac:(unfold in_grid; lia)).
      unfold cell in Hcells. rewrite !Nat2Z.id, Hia, Hib in Hcells.
      destruct (lookup_lt_is_Some_2 la m) as [x Hx]; [lia|].
      destruct (lookup_lt_is_Some_2 lb m) as [y Hy]; [lia|].
      rewrite Hx, Hy in Hcells |- *. cbn in Hcells. by rewrite Hcells.
    + rewrite !lookup_ge_None_2 by lia. done.
  - rewrite !lookup_ge_None_2 by lia. done.
Qed.

(** ** Still life and oscillator *)

Lemma update_grid_all_dead self :
  wf self -> all_dead self ->
  update_grid self = Ok (set_generation self (generation self + 1)).
Proof.
  intros Hwf Hdead. pose proof Hwf as (Hs & _).
  destruct (update_grid_spec self Hwf) as (a & -> & Ha & Hcells).
  assert (a = grid self) as ->; [|by destruct self].
  apply (grid_ext _ _ _ _ Ha Hs). intros i j Hin. rewrite Hcells by done.
  rewrite (Hdead i j Hin). unfold next_cell. rewrite (Hdead i j Hin).
  destruct Hin as [? ?].
  assert (forall di dj, cell (grid self) ((i + di) mod rows self)
                             ((j + dj) mod cols self) = 0) as Hz.
  { intros. apply Hdead. split; apply Z.mod_pos_bound; lia. }
  unfold neighbor_sum, neighbor_positions, offsets. cbn [map foldl].
  rewrite !Hz. reflexivity.
Qed.

(** X5: a grid without any ALIVE cell is a still life: any number of
    calls of update_grid leaves the grid as it is and only advances the
    generation counter. *)
Theorem dead_grid_stays_dead (self : GameOfLife) (n : nat) :
  wf self -> all_dead self ->
  iterate update_grid n self =
    Ok (set_generation self (generation self + Z.of_nat n)).
Proof.
  revert self. induction n as [|n IH]; intros self Hwf Hdead.
  - cbn [iterate]. f_equal. destruct self. unfold set_generation.
    cbn [width height cell_size cols rows grid running paused generation stdout].
    f_equal. lia.
  - cbn [iterate]. rewrite update_grid_all_dead by done. rewrite bind_Ok.
    rewrite IH.
    + f_equal. destruct self. unfold set_generation.
      cbn [width height cell_size cols rows grid running paused generation stdout].
      f_equal. lia.
    + by destruct Hwf as (? & ? & ?).
    + done.
Qed.

Lemma dead_grid_stays_dead_witness :
  iterate update_grid 5 quiet_game = Ok (set_generation quiet_game 9).
Proof.
  apply (dead_grid_stays_dead quiet_game 5).
  - apply wfb_wf. reflexivity.
  - intros i j Hin. rewrite (showsb_shows quiet_game [] 0 0 eq_refl i j Hin).
    unfold at_. destruct (_ && _); reflexivity.
Defined.

(** X6: on a grid of at least 5 rows and 5 columns that holds the
    blinker and nothing else, one call of update_grid leaves the three
    cells in a column through the middle cell, and a second call gives
    back the grid it started from: the blinker has period 2, wherever it
    is on the torus. *)
Theorem blinker_oscillates (self : GameOfLife) (r c : Z) :
  wf self -> 5 <= rows self -> 5 <= cols self ->
  shows self blinker r c ->
  exists self1 self2,
    update_grid self = Ok self1 /\
    shows self1 blinker_upright (r - 1) (c + 1) /\
    update_grid self1 = Ok self2 /\
    grid self2 = grid self /\
    generation self2 = generation self + 2.
Proof.
  intros Hwf HR HC H0.
  destruct (glider_phase self blinker r c Hwf HR HC eq_refl H0 (-1) 1 blinker_upright)
    as (s1 & Hup1 & Hwf1 & HR1 & HC1 & Hg1 & H1); [done|lia|lia|by vm_compute|].
  pose proof HR as HR'. pose proof HC as HC'.
  rewrite <- HR1 in HR'. rewrite <- HC1 in HC'.
  destruct (glider_phase s1 blinker_upright _ _ Hwf1 HR' HC' eq_refl H1 1 (-1) blinker)
    as (s2 & Hup2 & Hwf2 & HR2 & HC2 & Hg2 & H2); [done|lia|lia|by vm_compute|].
  exists s1, s2. split; [done|]. split; [done|]. split; [done|]. split; [|lia].
  destruct Hwf as (Hs & _). destruct Hwf2 as (Hs2 & _).
  rewrite HR2, HC2, HR1, HC1 in Hs2.
  apply (grid_ext _ _ _ _ Hs2 Hs). intros i j Hin.
  rewrite H0 by done. rewrite H2 by (by rewrite HR2, HC2, HR1, HC1).
  rewrite HR2, HC2, HR1, HC1. f_equal; f_equal; lia.
Qed.

Lemma blinker_oscillates_witness :
  exists self1 self2,
    update_grid blinker5 = Ok self1 /\ update_grid self1 = Ok self2 /\
    grid self2 = grid blinker5.
Proof.
  destruct (blinker_oscillates blinker5 4 4)
    as (s1 & s2 & H1 & _ & H2 & Hg & _).
  - apply wfb_wf. reflexivity.
  - simpl. lia.
  - simpl. lia.
  - apply showsb_shows. reflexivity.
  - exists s1, s2. split; [exact H1|]. split; [exact H2|exact Hg].
Defined.

(** ** Seeding on an empty grid, off the grid, and twice *)

Lemma seed_shows pattern h w game start_row start_col :
  wf game -> all_dead game -> 3 <= rows game -> 3 <= cols game ->
  - rows game <= start_row -> start_row + h <= rows game ->
  - cols game <= start_col -> start_col + w <= cols game ->
  h <= 3 -> w <= 3 -> fits3 pattern = true ->
  NoDup (map fst (template_cells pattern)) ->
  (forall i j v, In (i, j, v) (template_cells pattern) -> i < h /\ j < w) ->
  (forall u v, 0 <= u < 3 -> 0 <= v < 3 ->
     In (u, v, at_ pattern u v) (template_cells pattern) \/
     (at_ pattern u v = 0 /\ forall x, ~ In (u, v, x) (template_cells pattern))) ->
  exists game',
    seed pattern game start_row start_col = Ok game' /\
    shows game' pattern start_row start_col.
Proof.
  intros Hwf Hdead HR HC Hr1 Hr2 Hc1 Hc2 Hh Hw Hfit Hnodup Hsmall Hcover.
  destruct (seed_seeded pattern game start_row start_col Hwf Hr1 Hc1 Hnodup)
    as (a & Heq & Ha & _ & Hwritten & Hkept & _).
  { intros i j v Hin. destruct (Hsmall i j v Hin). lia. }
  eexists. split; [exact Heq|]. intros i j Hin. cbn [grid rows cols set_grid] in *.
  pose proof Hin as [Hi Hj].
  set (u := (i - start_row) mod rows game). set (v := (j - start_col) mod cols game).
  assert (0 <= u < rows game) as Hu by (apply Z.mod_pos_bound; lia).
  assert (0 <= v < cols game) as Hv by (apply Z.mod_pos_bound; lia).
  assert ((start_row + u) mod rows game = i) as Hti.
  { subst u. rewrite Zplus_mod_idemp_r.
    replace (start_row + (i - start_row)) with i by lia. by apply Z.mod_small. }
  assert ((start_col + v) mod cols game = j) as Htj.
  { subst v. rewrite Zplus_mod_idemp_r.
    replace (start_col + (j - start_col)) with j by lia. by apply Z.mod_small. }
  assert (forall i' j' x, In (i', j', x) (template_cells pattern) ->
            seed_target game start_row start_col i' j' = (i, j) ->
            i' = u /\ j' = v) as Hback.
  { intros i' j' x Hin' [= Hi' Hj'].
    destruct (template_cells_nonneg _ _ _ _ Hin'), (Hsmall _ _ _ Hin').
    subst u v. rewrite <- Hi', <- Hj', !Zminus_mod_idemp_l.
    replace (start_row + i' - start_row) with i' by lia.
    replace (start_col + j' - start_col) with j' by lia.
    rewrite !Z.mod_small by lia. done. }
  assert (In (u, v, at_ pattern u v) (template_cells pattern) \/
          (at_ pattern u v = 0 /\ forall x, ~ In (u, v, x) (template_cells pattern)))
    as [Hin'|[Hzero Hnone]].
  { destruct (decide (u < 3 /\ v < 3)) as [[? ?]|Hbig]; [apply Hcover; lia|].
    right. split; [apply at_out; (done || lia)|].
    intros x Hin'. destruct (Hsmall _ _ _ Hin'). lia. }
  - destruct (Hsmall _ _ _ Hin').
    specialize (Hwritten HR HC u v _ Hin'). unfold seed_target in Hwritten.
    cbn [fst snd] in Hwritten. rewrite Hti, Htj in Hwritten. apply Hwritten.
    unfold seed_guard. apply andb_true_iff. split; apply Z.ltb_lt; lia.
  - rewrite Hzero. rewrite Hkept; [by apply Hdead|done|].
    intros i' j' x Hin' _ Ht. destruct (Hback _ _ _ Hin' Ht) as [-> ->].
    by apply (Hnone x).
Qed.

(** X7: on a grid of at least 3 rows and 3 columns without any ALIVE
    cell, seeding at an offset that needs no clipping (negative offsets
    down to -rows and -cols included) raises nothing and leaves exactly
    the template, with its corner at the offset taken modulo rows and
    cols. *)
Theorem seeding_shows_template (game : GameOfLife) (start_row start_col : Z) :
  wf game -> all_dead game -> 3 <= rows game -> 3 <= cols game ->
  - rows game <= start_row -> - cols game <= start_col ->
  start_col + 3 <= cols game ->
  (start_row + 3 <= rows game ->
   exists game', create_glider game start_row start_col = Ok game' /\
                 shows game' glider start_row start_col) /\
  (start_row + 1 <= rows game ->
   exists game', create_blinker game start_row start_col = Ok game' /\
                 shows game' blinker start_row start_col).
Proof.
  intros Hwf Hdead HR HC Hr Hc Hc2. split; intros Hr2.
  - rewrite create_glider_seed.
    apply (seed_shows glider 3 3); try done; try lia.
    + apply glider_cells_NoDup.
    + apply glider_cells_small.
    + intros u v Hu Hv. left.
      assert (u = 0 \/ u = 1 \/ u = 2) as [-> | [-> | ->]] by lia;
      assert (v = 0 \/ v = 1 \/ v = 2) as [-> | [-> | ->]] by lia;
      cbn; solve [repeat (first [left; reflexivity | right])].
  - rewrite create_blinker_seed.
    apply (seed_shows blinker 1 3); try done; try lia.
    + apply blinker_cells_NoDup.
    + cbn. intros i j v H. repeat (destruct H as [[= <- <- <-]|H]; [lia|]). done.
    + intros u v Hu Hv.
      assert (u = 0 \/ u = 1 \/ u = 2) as [-> | [-> | ->]] by lia;
      assert (v = 0 \/ v = 1 \/ v = 2) as [-> | [-> | ->]] by lia;
      cbn; first [left; solve [repeat (first [left; reflexivity | right])]
                 | right; split; [reflexivity|];
                   intros x H; repeat (destruct H as [[=]|H]); done].
Qed.

Lemma seeding_shows_template_witness :
  exists game',
    create_glider (mkGame 5 5 1 5 5 (replicate 5 (replicate 5 0)) true false 0 [])
                  (-2) (-2) = Ok game' /\
    shows game' glider (-2) (-2).
Proof.
  destruct (seeding_shows_template
              (mkGame 5 5 1 5 5 (replicate 5 (replicate 5 0)) true false 0 [])
              (-2) (-2)) as [H _].
  - apply wfb_wf. reflexivity.
  - intros i j _. apply cell_zeros.
  - simpl. lia.
  - simpl. lia.
  - simpl. lia.
  - simpl. lia.
  - simpl. lia.
  - apply H. simpl. lia.
Defined.

Lemma for_each_skip {A S : Type} (l : list A) (body : A -> S -> result S) s :
  (forall x, In x l -> body x s = Ok s) -> for_each l body s = Ok s.
Proof.
  induction l as [|x l IH]; intros H; [done|]. cbn [for_each].
  rewrite H by (by left). rewrite bind_Ok. apply IH. intros. apply H. by right.
Qed.

Lemma seed_off_grid pattern game start_row start_col :
  rows game <= start_row \/ cols game <= start_col ->
  seed pattern game start_row start_col = Ok game.
Proof.
  intros Hoff. rewrite seed_flat. rewrite for_each_skip.
  - rewrite bind_Ok. by destruct game.
  - intros [[i j] v] Hin. destruct (template_cells_nonneg _ _ _ _ Hin).
    unfold seed_guard.
    destruct (Z.ltb_spec (start_row + i) (rows game));
      destruct (Z.ltb_spec (start_col + j) (cols game)); cbn; (done || lia).
Qed.

(** X8: seeding with the offset at or beyond the last row or the last
    column clips every template cell: nothing is raised and the object
    is returned as it was. *)
Theorem seeding_off_grid (game : GameOfLife) (start_row start_col : Z) :
  rows game <= start_row \/ cols game <= start_col ->
  create_glider game start_row start_col = Ok game /\
  create_blinker game start_row start_col = Ok game.
Proof.
  intros Hoff. rewrite create_glider_seed, create_blinker_seed.
  split; by apply seed_off_grid.
Qed.

Lemma seeding_off_grid_witness :
  create_glider small_game 1 3 = Ok small_game /\
  create_blinker small_game 1 3 = Ok small_game.
Proof. apply (seeding_off_grid small_game 1 3). right. simpl. lia. Defined.

Lemma seed_writes_cell game start_row start_col l r c :
  - rows game <= start_row -> - cols game <= start_col ->
  in_grid (rows game) (cols game) r c ->
  (forall i j v, In (i, j, v) l -> 0 <= i /\ 0 <= j) ->
  exists f : option Z,
    forall a, shaped a (rows game) (cols game) ->
      cell (foldl (seed_write game start_row start_col) a l) r c =
        default (cell a r c) f.
Proof.
  intros Hrow Hcol Hin. induction l as [|[[i j] v] l IH]; intros Hl.
  - by exists None.
  - destruct IH as [f Hf]; [intros; eapply Hl; by right|].
    destruct (Hl i j v) as [? ?]; [by left|].
    destruct f as [x|].
    + exists (Some x). intros a Ha. cbn [foldl].
      by rewrite Hf by (by apply seed_write_shaped).
    + destruct (seed_guard game start_row start_col i j) eqn:Hg.
      * pose proof (seed_target_in game start_row start_col Hrow Hcol i j
                      ltac:(done) ltac:(done) Hg) as Ht.
        cbn [seed_target fst snd] in Ht.
        exists (if (r =? (start_row + i) mod rows game) &&
                   (c =? (start_col + j) mod cols game) then Some v else None).
        intros a Ha. cbn [foldl].
        rewrite Hf by (by apply seed_write_shaped). cbn [default].
        unfold seed_write. rewrite Hg.
        rewrite (cell_upd _ _ _ Ha) by (done || apply Hin).
        by destruct (_ && _).
      * exists None. intros a Ha. cbn [foldl].
        rewrite Hf by (by apply seed_write_shaped). unfold seed_write.
        by rewrite Hg.
Qed.

Lemma seed_twice pattern game start_row start_col game' :
  wf game -> - rows game <= start_row -> - cols game <= start_col ->
  seed pattern game start_row start_col = Ok game' ->
  seed pattern game' start_row start_col = Ok game'.
Proof.
  intros (Hs & _) Hrow Hcol. pose proof (template_cells_nonneg pattern) as Hnn.
  rewrite seed_flat, seed_loop by done. rewrite bind_Ok. intros [= <-].
  set (a1 := foldl (seed_write game start_row start_col) (grid game)
                   (template_cells pattern)).
  assert (shaped a1 (rows game) (cols game)) as Ha1 by (by apply seed_writes_shaped).
  rewrite seed_flat. cbn [grid rows cols set_grid].
  assert (forall l a,
    for_each l (fun '(i, j, v) a =>
        if seed_guard (set_grid game a1) start_row start_col i j
        then setitem a (start_row + i) (start_col + j) v else Ok a) a =
    for_each l (fun '(i, j, v) a =>
        if seed_guard game start_row start_col i j
        then setitem a (start_row + i) (start_col + j) v else Ok a) a) as ->.
  { intros l a. apply for_each_ext. by intros [[i j] v] ? _. }
  rewrite seed_loop by done. rewrite bind_Ok. f_equal.
  assert (foldl (seed_write game start_row start_col) a1 (template_cells pattern) = a1)
    as ->; [|done].
  apply (grid_ext _ _ (rows game) (cols game)); [by apply seed_writes_shaped|done|].
  intros r c Hin.
  destruct (seed_writes_cell game start_row start_col (template_cells pattern) r c
              Hrow Hcol Hin Hnn) as [f Hf].
  rewrite Hf by done. subst a1. rewrite Hf by done. by destruct f.
Qed.

(** X9: seeding is idempotent: seeding the same pattern a second time at
    the same offset (at or above -rows, -cols) raises nothing and changes
    nothing, whatever the grid held and whatever its size. *)
Theorem seeding_twice (game : GameOfLife) (start_row start_col : Z)
    (game' : GameOfLife) :
  wf game -> - rows game <= start_row -> - cols game <= start_col ->
  (create_glider game start_row start_col = Ok game' ->
   create_glider game' start_row start_col = Ok game') /\
  (create_blinker game start_row start_col = Ok game' ->
   create_blinker game' start_row start_col = Ok game').
Proof.
  intros Hwf Hrow Hcol. rewrite !create_glider_seed, !create_blinker_seed.
  split; by apply seed_twice.
Qed.

Lemma seeding_twice_witness :
  create_blinker (mkGame 30 30 10 3 3 [ [1; 1; 1]; [0; 0; 1]; [1; 1; 1] ]
                    true false 7 []) 0 (-1) =
  Ok (mkGame 30 30 10 3 3 [ [1; 1; 1]; [0; 0; 1]; [1; 1; 1] ] true false 7 []).
Proof.
  destruct (seeding_twice small_game 0 (-1)
              (mkGame 30 30 10 3 3 [ [1; 1; 1]; [0; 0; 1]; [1; 1; 1] ]
                 true false 7 [])) as [_ H].
  - apply wfb_wf. reflexivity.
  - simpl. lia.
  - simpl. lia.
  - apply H. reflexivity.
Defined.

(** ** randomize_grid, cell by cell *)

(** What [randomize_grid] leaves: cell (i, j) is decided by draw number
    i * cols + j, and rows * cols draws are used. *)
Lemma randomize_grid_cells self density rnd :
  wf self ->
  exists a rnd',
    randomize_grid self density rnd = Ok (set_generation (set_grid self a) 0, rnd') /\
    shaped a (rows self) (cols self) /\
    (forall i j, in_grid (rows self) (cols self) i j ->
       cell a i j =
         if Qlt_bool (rnd (Z.to_nat (i * cols self + j))) density then 1 else 0) /\
    (forall n, rnd' n = rnd (n + Z.to_nat (rows self * cols self))%nat).
Proof.
  intros (Hs & _ & _). pose proof Hs as (HR & HC & _). unfold randomize_grid.
  set (R := rows self) in *. set (C := cols self) in *.
  pose (drawn (i j : Z) := if Qlt_bool (rnd (Z.to_nat (i * C + j))) density then 1 else 0).
  pose (done_before (i j i' j' : Z) := (i' <? i) || ((i' =? i) && (j' <? j))).
  pose (Inv (i j : Z) (s : ndarray * Random) :=
          shaped s.1 R C /\
          (forall i' j', in_grid R C i' j' -> done_before i j i' j' = true ->
             cell s.1 i' j' = drawn i' j') /\
          (forall n, s.2 n = rnd (n + Z.to_nat (i * C + j))%nat)).
  match goal with |- context [for_each _ ?body ?z] =>
    destruct (for_range_inv (fun i => Inv i 0) body 0 R z)
      as ([a rnd'] & -> & Ha & Hcells & Hrnd)
  end.
  - done.
  - split; [done|]. split.
    + intros i' j' [? ?]. unfold done_before. cases_cmp; (done || lia).
    + intros n. cbn. f_equal. lia.
  - intros i s Hi HI.
    match goal with |- context [for_each _ ?body s] =>
      destruct (for_range_inv (Inv i) body 0 C s) as (s' & -> & Hs' & Hc' & Hr')
    end.
    + done.
    + done.
    + intros j [a1 r1] Hj (Ha1 & Hc1 & Hr1). cbn [random_next fst snd] in *.
      rewrite (setitem_in _ _ _ Ha1) by done. rewrite bind_Ok.
      eexists; split; [done|]. split; [by apply upd_shaped|]. split; cbn [fst snd].
      * intros i' j' [Hi' Hj'] Hdone.
        rewrite (cell_upd _ _ _ Ha1) by (done || lia).
        destruct (Z.eqb_spec i' i) as [->|Hne]; cbn [andb].
        -- destruct (Z.eqb_spec j' j) as [->|Hne].
           ++ unfold drawn. rewrite Hr1. cbn. done.
           ++ apply Hc1; [done|]. revert Hdone. unfold done_before.
              cases_cmp; (done || lia).
        -- apply Hc1; [done|]. revert Hdone. unfold done_before.
           cases_cmp; (done || lia).
      * intros n. rewrite Hr1. f_equal. lia.
    + eexists; split; [done|]. split; [done|]. split.
      * intros i' j' [? ?] Hdone. apply Hc'; [done|]. revert Hdone.
        unfold done_before. cases_cmp; (done || lia).
      * intros n. rewrite Hr'. f_equal. lia.
  - rewrite bind_Ok. exists a, rnd'. split; [done|]. split; [done|]. split.
    + intros i j [? ?]. apply Hcells; [done|]. unfold done_before.
      cases_cmp; (done || lia).
    + intros n. cbn [snd] in Hrnd. rewrite Hrnd. f_equal. lia.
Qed.

(** X10: randomize_grid raises nothing, uses exactly rows * cols values
    of the random source, one per cell in row-major order, and sets cell
    (i, j) to ALIVE exactly when value number i * cols + j is below the
    density. *)
Theorem randomize_grid_draws (self : GameOfLife) (density : Q) (rnd : Random) :
  wf self ->
  exists self' rnd',
    randomize_grid self density rnd = Ok (self', rnd') /\
    same_config self self' /\
    (forall i j, in_grid (rows self) (cols self) i j ->
       (getitem (grid self') i j = Ok ALIVE /\
        (rnd (Z.to_nat (i * cols self + j)) < density)%Q) \/
       (getitem (grid self') i j = Ok DEAD /\
        (density <= rnd (Z.to_nat (i * cols self + j)))%Q)) /\
    (forall n, rnd' n = rnd (n + Z.to_nat (rows self * cols self))%nat).
Proof.
  intros Hwf.
  destruct (randomize_grid_cells self density rnd Hwf)
    as (a & rnd' & Heq & Ha & Hcells & Hrnd).
  eexists _, _. split; [exact Heq|]. split; [by repeat split|]. split; [|done].
  intros i j Hin. cbn [grid set_grid set_generation].
  rewrite (getitem_in _ _ _ Ha) by done. rewrite Hcells by done.
  unfold Qlt_bool, ALIVE, DEAD.
  destruct (Qle_bool density _) eqn:Hle; cbn [negb].
  - right. split; [done|]. by apply Qle_bool_iff.
  - left. split; [done|]. apply Qnot_le_lt. intros Hle'.
    apply Qle_bool_iff in Hle'. congruence.
Qed.

Lemma randomize_grid_draws_witness :
  exists self' rnd',
    randomize_grid small_game default_density cycle_random = Ok (self', rnd') /\
    forall n, rnd' n = cycle_random (n + 9)%nat.
Proof.
  destruct (randomize_grid_draws small_game default_density cycle_random)
    as (s & r & H & _ & _ & Hr).
  - apply wfb_wf. reflexivity.
  - exists s, r. split; [exact H|exact Hr].
Defined.

(** X11: with a random source that returns values in [0, 1), as
    random.random() does, a density of 0 leaves every cell DEAD and a
    density of 1 leaves every cell ALIVE. *)
Theorem randomize_grid_extremes (self : GameOfLife) (rnd : Random) :
  wf self -> (forall n, (0 <= rnd n)%Q /\ (rnd n < 1)%Q) ->
  (exists self' rnd',
     randomize_grid self 0 rnd = Ok (self', rnd') /\
     forall i j, in_grid (rows self) (cols self) i j ->
       getitem (grid self') i j = Ok DEAD) /\
  (exists self' rnd',
     randomize_grid self 1 rnd = Ok (self', rnd') /\
     forall i j, in_grid (rows self) (cols self) i j ->
       getitem (grid self') i j = Ok ALIVE).
Proof.
  intros Hwf Hrange. split.
  - destruct (randomize_grid_cells self 0 rnd Hwf) as (a & rnd' & Heq & Ha & Hcells & _).
    eexists _, _. split; [exact Heq|]. intros i j Hin.
    cbn [grid set_grid set_generation].
    rewrite (getitem_in _ _ _ Ha) by done. rewrite Hcells by done.
    unfold Qlt_bool.
    destruct (Hrange (Z.to_nat (i * cols self + j))) as [H0%Qle_bool_iff _].
    by rewrite H0.
  - destruct (randomize_grid_cells self 1 rnd Hwf) as (a & rnd' & Heq & Ha & Hcells & _).
    eexists _, _. split; [exact Heq|]. intros i j Hin.
    cbn [grid set_grid set_generation].
    rewrite (getitem_in _ _ _ Ha) by done. rewrite Hcells by done.
    unfold Qlt_bool.
    destruct (Hrange (Z.to_nat (i * cols self + j))) as [_ H1].
    destruct (Qle_bool 1 _) eqn:Hle; [|done].
    apply Qle_bool_iff in Hle. by apply Qlt_not_le in H1.
Qed.

Lemma randomize_grid_extremes_witness :
  exists self' rnd',
    randomize_grid small_game 1 cycle_random = Ok (self', rnd') /\
    getitem (grid self') 0 0 = Ok ALIVE.
Proof.
  destruct (randomize_grid_extremes small_game cycle_random)
    as (_ & s & r & H & Hcells).
  - apply wfb_wf. reflexivity.
  - intros n. unfold cycle_random, Qle, Qlt. simpl.
    pose proof (Nat.mod_upper_bound n 4). lia.
  - exists s, r. split; [exact H|]. apply Hcells. unfold in_grid. simpl. lia.
Defined.

(** ** count_neighbors at the edges of its domain *)

(** X12: count_neighbors depends on the position only modulo the
    dimensions: moving the row by a multiple of rows and the column by a
    multiple of cols gives the same result, exception included. *)
Theorem count_neighbors_periodic (self : GameOfLife) (row col k l : Z) :
  count_neighbors self (row + k * rows self) (col + l * cols self) =
  count_neighbors self row col.
Proof.
  unfold count_neighbors. apply for_each_ext. intros i count _.
  apply for_each_ext. intros j count' _.
  destruct (_ && _); [done|]. unfold py_mod.
  destruct (rows self =? 0); [done|]. destruct (cols self =? 0); [done|].
  rewrite !bind_Ok.
  replace (row + k * rows self + i) with (row + i + k * rows self) by lia.
  replace (col + l * cols self + j) with (col + j + l * cols self) by lia.
  by rewrite !Z_mod_plus_full.
Qed.

(** X13: on an object without rows or without columns count_neighbors
    raises ZeroDivisionError, at any position. *)
Theorem count_neighbors_zero_area (self : GameOfLife) (row col : Z) :
  rows self = 0 \/ cols self = 0 ->
  count_neighbors self row col = Raise ZeroDivisionError.
Proof.
  intros Hzero. unfold count_neighbors. change (range (-1) 2) with [-1; 0; 1].
  cbn [for_each Z.eqb andb]. unfold py_mod.
  destruct (Z.eqb_spec (rows self) 0); [done|].
  destruct (Z.eqb_spec (cols self) 0); [done|lia].
Qed.

Lemma count_neighbors_zero_area_witness :
  count_neighbors (mkGame 800 5 10 80 0 [] true false 0 []) 0 0 =
  Raise ZeroDivisionError.
Proof.
  apply (count_neighbors_zero_area (mkGame 800 5 10 80 0 [] true false 0 [])).
  left. reflexivity.
Defined.

Lemma neighbor_not_self R row d :
  2 <= R -> 0 <= row < R -> d = -1 \/ d = 1 -> (row + d) mod R <> row.
Proof.
  intros HR Hrow [-> | ->].
  - rewrite mod_wrap by lia. destruct (Z.ltb_spec (row + -1) 0); lia.
  - destruct (decide (row + 1 < R)).
    + rewrite Z.mod_small by lia. lia.
    + replace (row + 1) with R by lia. rewrite Z_mod_same_full. lia.
Qed.

(** X14: on a grid of at least 2 rows and 2 columns a cell is not one of
    its own neighbours: toggling the cell at (row, col) leaves
    count_neighbors(row, col) as it was. *)
Theorem count_neighbors_excludes_cell (self : GameOfLife) (row col : Z) :
  wf self -> 2 <= rows self -> 2 <= cols self ->
  in_grid (rows self) (cols self) row col ->
  exists self',
    toggle self row col = Ok self' /\
    count_neighbors self' row col = count_neighbors self row col.
Proof.
  intros Hwf HR HC Hin. pose proof Hwf as (Hs & _). pose proof Hin as [Hrow Hcol].
  pose proof (toggle_in self row col Hwf Hin) as Ht.
  destruct (toggle_wf _ _ _ _ Hwf Ht) as (Hwf' & _).
  eexists. split; [exact Ht|].
  rewrite !count_neighbors_sum by (done || (cbn; lia)). f_equal.
  cbn [grid rows cols print set_grid].
  unfold neighbor_sum, neighbor_positions, offsets. cbn [map foldl].
  pose proof (neighbor_not_self (rows self) row (-1) HR Hrow ltac:(auto)).
  pose proof (neighbor_not_self (rows self) row 1 HR Hrow ltac:(auto)).
  pose proof (neighbor_not_self (cols self) col (-1) HC Hcol ltac:(auto)).
  pose proof (neighbor_not_self (cols self) col 1 HC Hcol ltac:(auto)).
  rewrite !(cell_upd _ _ _ Hs) by (done || apply Z.mod_pos_bound; lia).
  repeat match goal with
  | |- context [?a =? ?b] => destruct (Z.eqb_spec a b); [lia|]
  end.
  cbn [andb].
  repeat match goal with
  | |- context [false && ?b] => change (false && b) with false
  | |- context [?b && false] => rewrite (andb_false_r b)
  end.
  reflexivity.
Qed.

Lemma count_neighbors_excludes_cell_witness :
  exists self',
    toggle small_game 1 1 = Ok self' /\
    count_neighbors self' 1 1 = count_neighbors small_game 1 1.
Proof.
  apply (count_neighbors_excludes_cell small_game 1 1).
  - apply wfb_wf. reflexivity.
  - simpl. lia.
  - simpl. lia.
  - unfold in_grid. simpl. lia.
Defined.

(** ** Clicks *)

Lemma div_in_range cs n x :
  0 < cs -> (0 <= x / cs < n <-> 0 <= x < n * cs).
Proof.
  intros Hcs. pose proof (Z.div_mod x cs ltac:(lia)).
  pose proof (Z.mod_pos_bound x cs Hcs). split; nia.
Qed.

(** X15: with a positive cell size, a left click at pixel (x, y) flips
    the cell in row y // cell_size and column x // cell_size and prints
    that position with the new value when 0 <= x < cols * cell_size and
    0 <= y < rows * cell_size; any other pixel, such as one in the strip
    that the integer division leaves at the right or at the bottom of the
    surface, changes nothing. *)
Theorem click_pixel_mapping (self : GameOfLife) (x y : Z) :
  wf self -> 0 < cell_size self ->
  let row := y / cell_size self in
  let col := x / cell_size self in
  (0 <= x < cols self * cell_size self /\ 0 <= y < rows self * cell_size self ->
   exists self' v,
     handle_mouse_click self (x, y) = Ok self' /\
     getitem (grid self) row col = Ok v /\
     getitem (grid self') row col = Ok (1 - v) /\
     stdout self' = stdout self ++ [(row, col, 1 - v)]) /\
  (~ (0 <= x < cols self * cell_size self /\ 0 <= y < rows self * cell_size self) ->
   handle_mouse_click self (x, y) = Ok self).
Proof.
  intros Hwf Hcs row col. pose proof Hwf as (Hs & _).
  rewrite handle_mouse_click_toggle by lia. fold row col.
  pose proof (div_in_range (cell_size self) (cols self) x Hcs) as Hx.
  pose proof (div_in_range (cell_size self) (rows self) y Hcs) as Hy.
  fold row in Hy. fold col in Hx. split.
  - intros [Hxr Hyr]. assert (in_grid (rows self) (cols self) row col) as Hin
      by (split; tauto).
    rewrite toggle_in by done. eexists _, _. split; [done|].
    split; [by apply (getitem_in _ _ _ Hs)|]. split; [|done].
    cbn [grid print set_grid].
    rewrite (getitem_in _ _ _ (upd_shaped _ _ _ Hs _ _ _)) by done.
    rewrite (cell_upd _ _ _ Hs) by (done || destruct Hin; lia).
    by rewrite !Z.eqb_refl.
  - intros Hout. apply toggle_out. unfold in_grid. tauto.
Qed.

Lemma click_pixel_mapping_witness :
  exists self' v,
    handle_mouse_click small_game (29, 0) = Ok self' /\
    getitem (grid small_game) 0 2 = Ok v /\
    getitem (grid self') 0 2 = Ok (1 - v).
Proof.
  destruct (click_pixel_mapping small_game 29 0) as [H _].
  - apply wfb_wf. reflexivity.
  - simpl. lia.
  - destruct H as (s & v & H1 & H2 & H3 & _); [simpl; lia|].
    exists s, v. split; [exact H1|]. split; [exact H2|exact H3].
Defined.

(** X16: toggling two cells gives the same grid in either order (the
    same cell twice included). *)
Theorem toggle_commutes (self : GameOfLife) (r1 c1 r2 c2 : Z) :
  wf self ->
  in_grid (rows self) (cols self) r1 c1 ->
  in_grid (rows self) (cols self) r2 c2 ->
  exists a a' b b',
    toggle self r1 c1 = Ok a /\ toggle a r2 c2 = Ok a' /\
    toggle self r2 c2 = Ok b /\ toggle b r1 c1 = Ok b' /\
    grid a' = grid b'.
Proof.
  intros Hwf H1 H2. pose proof Hwf as (Hs & _).
  pose proof (toggle_in self r1 c1 Hwf H1) as Ha.
  pose proof (toggle_in self r2 c2 Hwf H2) as Hb.
  destruct (toggle_wf _ _ _ _ Hwf Ha) as (Hwfa & _).
  destruct (toggle_wf _ _ _ _ Hwf Hb) as (Hwfb & _).
  eexists _, _, _, _. split; [exact Ha|]. split; [by apply toggle_in|].
  split; [exact Hb|]. split; [by apply toggle_in|].
  cbn [grid print set_grid rows cols].
  pose proof (upd_shaped _ _ _ Hs r1 c1 (1 - cell (grid self) r1 c1)) as Hsa.
  pose proof (upd_shaped _ _ _ Hs r2 c2 (1 - cell (grid self) r2 c2)) as Hsb.
  eapply grid_ext; [by apply upd_shaped|by apply upd_shaped|].
  intros i j [Hi Hj]. destruct H1 as [? ?], H2 as [? ?].
  rewrite (cell_upd _ _ _ Hsa), (cell_upd _ _ _ Hsb) by (done || lia).
  rewrite !(cell_upd _ _ _ Hs) by (done || lia).
  repeat match goal with
  | |- context [?a =? ?b] => destruct (Z.eqb_spec a b)
  end; cbn [andb]; subst; lia.
Qed.

Lemma toggle_commutes_witness :
  exists a a' b b',
    toggle small_game 0 0 = Ok a /\ toggle a 2 1 = Ok a' /\
    toggle small_game 2 1 = Ok b /\ toggle b 0 0 = Ok b' /\
    grid a' = grid b'.
Proof.
  apply (toggle_commutes small_game 0 0 2 1).
  - apply wfb_wf. reflexivity.
  - unfold in_grid. simpl. lia.
  - unfold in_grid. simpl. lia.
Defined.

(** ** Drawing *)

Lemma range_snoc lo k : lo <= k -> range lo (k + 1) = range lo k ++ [k].
Proof.
  intros H. unfold range.
  replace (Z.to_nat (k + 1 - lo)) with (S (Z.to_nat (k - lo))) by lia.
  rewrite seq_S, map_app. cbn [map]. do 2 f_equal. lia.
Qed.

Lemma draw_grid_spec self :
  wf self ->
  draw_grid self =
    Ok (Fill BLACK ::
        flat_map (fun i => flat_map (cell_draws self i) (range 0 (cols self)))
                 (range 0 (rows self))).
Proof.
  intros (Hs & _ & _). pose proof Hs as (HR & HC & _). unfold draw_grid.
  pose (line i := flat_map (cell_draws self i) (range 0 (cols self))).
  match goal with |- context [for_each _ ?body ?z] =>
    destruct (for_range_inv
                (fun i screen => screen = Fill BLACK :: flat_map line (range 0 i))
                body 0 (rows self) z) as (screen & -> & ->)
  end; [done|done| |done].
  intros i screen Hi ->.
  match goal with |- context [for_each _ ?body ?z] =>
    destruct (for_range_inv
                (fun j screen => screen = (Fill BLACK :: flat_map line (range 0 i)) ++
                                          flat_map (cell_draws self i) (range 0 j))
                body 0 (cols self) z) as (screen & -> & ->)
  end.
  - done.
  - by rewrite app_nil_r.
  - intros j screen Hj ->. rewrite (getitem_in _ _ _ Hs) by done. rewrite bind_Ok.
    eexists. split; [done|]. rewrite range_snoc, flat_map_app by lia.
    cbn [flat_map]. rewrite app_nil_r. unfold cell_draws.
    destruct (_ =? 1); by rewrite <- ?app_assoc.
  - eexists. split; [done|]. rewrite range_snoc, flat_map_app by lia.
    cbn [flat_map]. by rewrite app_nil_r.
Qed.

Lemma draw_grid_In self d :
  In d (flat_map (fun i => flat_map (cell_draws self i) (range 0 (cols self)))
                 (range 0 (rows self))) <->
  exists i j, in_grid (rows self) (cols self) i j /\ In d (cell_draws self i j).
Proof.
  rewrite in_flat_map. split.
  - intros (i & Hi & Hd). apply in_flat_map in Hd as (j & Hj & Hd).
    apply range_In in Hi, Hj. by exists i, j.
  - intros (i & j & [Hi Hj] & Hd). exists i. split; [by apply range_In|].
    apply in_flat_map. exists j. split; [by apply range_In|done].
Qed.

(** X17: draw_grid raises nothing; it first fills the screen in black;
    the green squares it draws are exactly those of the ALIVE cells, cell
    (i, j) at pixel (j * cell_size, i * cell_size) with side cell_size;
    and every cell of the grid gets its gray outline. *)
Theorem draw_grid_cells (self : GameOfLife) :
  wf self ->
  exists screen,
    draw_grid self = Ok (Fill BLACK :: screen) /\
    (forall x y w h b,
       In (Rect GREEN x y w h b) screen <->
       exists i j,
         in_grid (rows self) (cols self) i j /\ cell (grid self) i j = ALIVE /\
         x = j * cell_size self /\ y = i * cell_size self /\
         w = cell_size self /\ h = cell_size self /\ b = 0) /\
    (forall i j, in_grid (rows self) (cols self) i j ->
       In (Rect GRAY (j * cell_size self) (i * cell_size self)
                (cell_size self) (cell_size self) 1) screen) /\
    ~ In (Fill BLACK) screen.
Proof.
  intros Hwf. eexists. split; [by apply draw_grid_spec|]. split; [|split].
  - intros x y w h b. rewrite draw_grid_In. split.
    + intros (i & j & Hin & Hd). exists i, j. split; [done|].
      unfold cell_draws in Hd. apply in_app_or in Hd as [Hd|Hd].
      * destruct (Z.eqb_spec (cell (grid self) i j) 1) as [E|]; [|done].
        destruct Hd as [[= <- <- <- <- <-]|[]]. done.
      * destruct Hd as [[=]|[]].
    + intros (i & j & Hin & E & -> & -> & -> & -> & ->). exists i, j.
      split; [done|]. unfold cell_draws. apply in_or_app. left.
      rewrite E. by left.
  - intros i j Hin. apply draw_grid_In. exists i, j. split; [done|].
    unfold cell_draws. apply in_or_app. right. by left.
  - rewrite draw_grid_In. intros (i & j & _ & Hd). unfold cell_draws in Hd.
    apply in_app_or in Hd as [Hd|Hd].
    + destruct (_ =? 1); [|done]. by destruct Hd as [[=]|[]].
    + by destruct Hd as [[=]|[]].
Qed.

Lemma draw_grid_cells_witness :
  exists screen,
    draw_grid small_game = Ok (Fill BLACK :: screen) /\
    In (Rect GRAY 20 10 10 10 1) screen.
Proof.
  destruct (draw_grid_cells small_game) as (screen & H & _ & Hgray & _).
  - apply wfb_wf. reflexivity.
  - exists screen. split; [exact H|]. apply (Hgray 1 2).
    unfold in_grid. simpl. lia.
Defined.

(** X18: in every state the object can reach, if the cell size is
    positive, every rectangle that draw_grid draws lies inside the
    surface of width x height pixels. *)
Theorem draw_grid_inside_surface (self : GameOfLife) :
  reachable self -> 0 < cell_size self ->
  exists screen,
    draw_grid self = Ok screen /\
    forall color x y w h b, In (Rect color x y w h b) screen ->
      0 <= x /\ x + w <= width self /\ 0 <= y /\ y + h <= height self.
Proof.
  intros Hr Hcs. destruct (reachable_wf self Hr) as (Hwf & _).
  destruct (reachable_config self Hr) as (_ & HC & HR).
  eexists. split; [by apply draw_grid_spec|].
  intros color x y w h b [[=]|Hd].
  apply draw_grid_In in Hd as (i & j & [Hi Hj] & Hd).
  pose proof (Z.mul_div_le (width self) (cell_size self) Hcs).
  pose proof (Z.mul_div_le (height self) (cell_size self) Hcs).
  assert (x = j * cell_size self /\ y = i * cell_size self /\
          w = cell_size self /\ h = cell_size self) as (-> & -> & -> & ->).
  { unfold cell_draws in Hd. apply in_app_or in Hd as [Hd|Hd].
    - destruct (_ =? 1); [|done]. by destruct Hd as [[= <- <- <- <- <-]|[]].
    - by destruct Hd as [[= <- <- <- <- <-]|[]]. }
  rewrite HC in Hj. rewrite HR in Hi. nia.
Qed.

Lemma draw_grid_inside_surface_witness :
  exists screen,
    draw_grid (mkGame 35 25 10 3 2 (replicate 2 (replicate 3 0)) true false 0 [])
      = Ok screen /\
    forall color x y w h b, In (Rect color x y w h b) screen ->
      0 <= x /\ x + w <= 35 /\ 0 <= y /\ y + h <= 25.
Proof.
  apply (draw_grid_inside_surface
           (mkGame 35 25 10 3 2 (replicate 2 (replicate 3 0)) true false 0 [])).
  - apply (reach_init open_display 35 25 10). reflexivity.
  - simpl. lia.
Defined.

(** ** The program *)

(** X19: the program as started by the __main__ block (a surface of
    1000 x 800 with cells of 8 pixels, the glider seeded at (10, 10) and
    the blinker at (5, 5)): once the display has opened that surface, it
    raises no exception, whatever events arrive and whatever the random
    source returns, and the grid keeps its 100 rows and 125 columns; when
    the display does not open, the constructor raises pygame.error. *)
Theorem main_never_raises (display : Display) (batches : list (list event))
    (rnd : Random) :
  if display 1000 800 then
    exists self' rnd',
      main display batches rnd = Ok (self', rnd') /\ wf self' /\
      rows self' = 100 /\ cols self' = 125
  else main display batches rnd = Raise PygameError.
Proof.
  unfold main. destruct (display 1000 800) eqn:Hd.
  - rewrite init_spec by done. rewrite bind_Ok.
    change (1000 / 8) with 125. change (800 / 8) with 100.
    set (g0 := mkGame 1000 800 8 125 100 _ true false 0 []).
    assert (wf g0) as Hwf0.
    { split; [by apply shaped_zeros|]. split; [apply binary_zeros|done]. }
    rewrite create_glider_seed.
    destruct (seed_seeded glider g0 10 10 Hwf0 ltac:(cbn; lia) ltac:(cbn; lia)
                glider_cells_NoDup glider_cells_small) as (a1 & H1 & _).
    rewrite H1, bind_Ok.
    apply seed_preserves in H1 as (Hwf1 & _ & _ & _ & HR1 & HC1);
      [|done|apply glider_binary].
    rewrite create_blinker_seed.
    destruct (seed_seeded blinker (set_grid g0 a1) 5 5 Hwf1
                ltac:(cbn; lia) ltac:(cbn; lia)
                blinker_cells_NoDup blinker_cells_small) as (a2 & H2 & _).
    rewrite H2, bind_Ok.
    apply seed_preserves in H2 as (Hwf2 & _ & _ & _ & HR2 & HC2);
      [|done|apply blinker_binary].
    destruct (run_total batches _ rnd Hwf2) as (s & r & Hrun & Hwf & Hc).
    exists s, r. split; [exact Hrun|]. split; [done|].
    destruct Hc as (_ & _ & _ & -> & ->). done.
  - unfold __init__, py_floordiv, set_mode. cbn. by rewrite Hd.
Qed.

Lemma main_never_raises_witness :
  exists self' rnd',
    main open_display [[KEYDOWN K_r]; [MOUSEBUTTONDOWN 1 (999, 799); QUIT]]
      cycle_random = Ok (self', rnd') /\
    wf self' /\ rows self' = 100 /\ cols self' = 125.
Proof.
  exact (main_never_raises open_display
           [[KEYDOWN K_r]; [MOUSEBUTTONDOWN 1 (999, 799); QUIT]] cycle_random).
Defined.
